(** * Qwen OAuth credential broker: a shallow embedding

    This development embeds [scripts/qwen_oauth_to_openapi_bak.py] and
    states the properties of its specification over the embedding.

    Scope of the model.
    - Python values are the ones [json.load] builds, without [float]:
      the credential file and the token endpoint carry strings and
      integers only.  A JSON number with a fraction or an exponent is
      outside the modelled fragment ([py_loads] answers [None] on it).
      Integers are unbounded; neither the interpreter's limit on the
      length of a decimal literal nor its recursion limit is modelled.
    - A Python [str] is a Rocq [string] whose characters are the code
      points 0..255; a file is its decoded text.
    - A [dict] is an association list in insertion order with pairwise
      distinct keys, because [json.dump] writes keys in that order.
    - The clock reading [time.time() * 1000] is a rational number; Python
      compares a float with an int exactly, and [int(...)] truncates
      towards zero.
    - [os.path] is [posixpath]; the file system is a finite map from
      path to text (directories and permissions are not modelled).
    - The token endpoint, the clock, the home directory, the working
      directory and the debugger session started by the breakpoint left
      in [refresh_access_token] are the environment [Env]. *)

From Stdlib Require Import ZArith QArith String Ascii List Lia.
From Stdlib Require Import DecimalString DecimalFacts DecimalPos DecimalZ.
From stdpp Require Import base gmap strings.
Import ListNotations.

Local Open Scope string_scope.
Local Open Scope list_scope.
Local Open Scope Z_scope.

(* ================================================================== *)
(** ** Python values *)
(* ================================================================== *)

Module Py.

#[local] Unset Elimination Schemes.
Inductive pyval : Type :=
| PNone
| PBool (b : bool)
| PInt (n : Z)
| PStr (s : string)
| PList (l : list pyval)
| PDict (d : list (string * pyval)).
#[local] Set Elimination Schemes.

Definition pydict : Type := list (string * pyval).

(** Structural induction through the nested lists. *)
Definition pyval_ind (P : pyval -> Prop)
  (HNone : P PNone)
  (HBool : forall b, P (PBool b))
  (HInt : forall n, P (PInt n))
  (HStr : forall s, P (PStr s))
  (HList : forall l, Forall P l -> P (PList l))
  (HDict : forall d, Forall (fun kv => P (snd kv)) d -> P (PDict d))
  : forall v, P v :=
  fix F (v : pyval) : P v :=
    match v with
    | PNone => HNone
    | PBool b => HBool b
    | PInt n => HInt n
    | PStr s => HStr s
    | PList l =>
        HList l ((fix G (l : list pyval) : Forall P l :=
                    match l with
                    | [] => List.Forall_nil P
                    | x :: xs => @List.Forall_cons _ P x xs (F x) (G xs)
                    end) l)
    | PDict d =>
        HDict d ((fix G (d : list (string * pyval)) : Forall (fun kv => P (snd kv)) d :=
                    match d with
                    | [] => List.Forall_nil _
                    | kv :: kvs =>
                        @List.Forall_cons _ (fun kv => P (snd kv)) kv kvs (F (snd kv)) (G kvs)
                    end) d)
    end.

(** The values Python can build: every dict has pairwise distinct keys. *)
Fixpoint distinct (keys : list string) : bool :=
  match keys with
  | [] => true
  | k :: ks => negb (existsb (String.eqb k) ks) && distinct ks
  end.

Fixpoint well_formed (v : pyval) : bool :=
  match v with
  | PList l => forallb well_formed l
  | PDict d => distinct (map fst d) && forallb (fun kv => well_formed (snd kv)) d
  | _ => true
  end.

(** Number of values in [v], counting [v] and every item once more. *)
Fixpoint value_size (v : pyval) : nat :=
  match v with
  | PList l => S (list_sum (map (fun x => S (value_size x)) l))
  | PDict d => S (list_sum (map (fun kv => S (value_size (snd kv))) d))
  | _ => 1
  end.

(** Exceptions the script can raise. *)
Inductive value_error : Type :=
| NoRefreshToken                       (* "No refresh token available in credentials." *)
| TokenRefreshFailed (err descr : pyval). (* "Token refresh failed: {err} - {descr}" *)

Inductive exn : Type :=
| FileNotFoundError (path : string)
| JSONDecodeError
| ValueError (why : value_error)
| KeyError (key : string)
| TypeError
| AttributeError
| HTTPError (status : Z)
| ConnectionError
| ModuleNotFoundError (name : string)
| BdbQuit.

Inductive outcome (A : Type) : Type :=
| Ok (a : A)
| Raise (e : exn).
Arguments Ok {A} a.
Arguments Raise {A} e.

(** *** dict primitives *)

Fixpoint dict_get (k : string) (d : pydict) : option pyval :=
  match d with
  | [] => None
  | (k', v) :: d' => if String.eqb k k' then Some v else dict_get k d'
  end.

(** [d[k] = v]: an existing key keeps its position, a new key goes last. *)
Fixpoint dict_set (k : string) (v : pyval) (d : pydict) : pydict :=
  match d with
  | [] => [(k, v)]
  | (k', v') :: d' =>
      if String.eqb k k' then (k', v) :: d' else (k', v') :: dict_set k v d'
  end.

(** [d.update(other)], and [dict(pairs)] as an update of the empty dict. *)
Definition dict_update (d other : pydict) : pydict :=
  fold_left (fun acc kv => dict_set (fst kv) (snd kv) acc) other d.

Definition dict_of_pairs (pairs : pydict) : pydict := dict_update [] pairs.

Definition dict_keys (d : pydict) : list string := map fst d.

(** *** str primitives *)

Definition str_startswith (p s : string) : bool := String.prefix p s.

(** [s.endswith(suf)]: some suffix of [s] is [suf]. *)
Fixpoint str_endswith (suf s : string) : bool :=
  String.eqb s suf ||
  match s with
  | EmptyString => false
  | String _ s' => str_endswith suf s'
  end.

(** [needle in s] on strings: substring test. *)
Fixpoint str_contains (needle s : string) : bool :=
  String.prefix needle s ||
  match s with
  | EmptyString => false
  | String _ s' => str_contains needle s'
  end.

(** [s[n:]] *)
Fixpoint str_drop (n : nat) (s : string) : string :=
  match n, s with
  | O, _ => s
  | S _, EmptyString => EmptyString
  | S n', String _ s' => str_drop n' s'
  end.

(** [s * n] on strings *)
Fixpoint str_repeat (n : nat) (s : string) : string :=
  match n with
  | O => EmptyString
  | S n' => s +:+ str_repeat n' s
  end.

Fixpoint list_repeat {A} (n : nat) (l : list A) : list A :=
  match n with
  | O => []
  | S n' => l ++ list_repeat n' l
  end.

(** *** Operators, with the exceptions Python raises on the wrong type *)

Definition pyval_is_str (s : string) (v : pyval) : bool :=
  match v with
  | PStr s' => String.eqb s s'
  | _ => false
  end.

(** Truth value: [bool(v)]. *)
Definition py_truthy (v : pyval) : bool :=
  match v with
  | PNone => false
  | PBool b => b
  | PInt n => negb (n =? 0)
  | PStr s => negb (String.eqb s "")
  | PList l => match l with [] => false | _ => true end
  | PDict d => match d with [] => false | _ => true end
  end.

(** [k in c] for a string [k]. *)
Definition py_contains (k : string) (c : pyval) : outcome bool :=
  match c with
  | PDict d => Ok (match dict_get k d with Some _ => true | None => false end)
  | PList l => Ok (existsb (pyval_is_str k) l)
  | PStr s => Ok (str_contains k s)
  | PNone | PBool _ | PInt _ => Raise TypeError
  end.

(** [c[k]] for a string [k]. *)
Definition py_getitem (c : pyval) (k : string) : outcome pyval :=
  match c with
  | PDict d => match dict_get k d with
               | Some v => Ok v
               | None => Raise (KeyError k)
               end
  | _ => Raise TypeError
  end.

(** [c.get(k, default)] *)
Definition py_get (c : pyval) (k : string) (default : pyval) : outcome pyval :=
  match c with
  | PDict d => Ok (match dict_get k d with Some v => v | None => default end)
  | _ => Raise AttributeError
  end.

(** [c.copy()] *)
Definition py_copy (c : pyval) : outcome pyval :=
  match c with
  | PDict d => Ok (PDict d)
  | PList l => Ok (PList l)
  | _ => Raise AttributeError
  end.

(** [c.update(other)] for a dict literal [other]; the updated object. *)
Definition py_update (c : pyval) (other : pydict) : outcome pyval :=
  match c with
  | PDict d => Ok (PDict (dict_update d other))
  | _ => Raise AttributeError
  end.

(** [v - n] for an int [n]; on success the result is an int. *)
Definition py_sub_int (v : pyval) (n : Z) : outcome Z :=
  match v with
  | PInt m => Ok (m - n)
  | PBool b => Ok ((if b then 1 else 0) - n)
  | _ => Raise TypeError
  end.

(** [v * n] for an int [n]: product on numbers, repetition on sequences. *)
Definition py_mul_int (v : pyval) (n : Z) : outcome pyval :=
  match v with
  | PInt m => Ok (PInt (m * n))
  | PBool b => Ok (PInt ((if b then 1 else 0) * n))
  | PStr s => Ok (PStr (str_repeat (Z.to_nat n) s))
  | PList l => Ok (PList (list_repeat (Z.to_nat n) l))
  | PNone | PDict _ => Raise TypeError
  end.

(** [n + v] for an int [n]. *)
Definition py_int_add (n : Z) (v : pyval) : outcome pyval :=
  match v with
  | PInt m => Ok (PInt (n + m))
  | PBool b => Ok (PInt (n + (if b then 1 else 0)))
  | _ => Raise TypeError
  end.

(** [v.startswith(prefixes)] and [v.endswith(suf)] exist on [str] only. *)
Definition py_startswith_any (v : pyval) (prefixes : list string) : outcome bool :=
  match v with
  | PStr s => Ok (existsb (fun p => str_startswith p s) prefixes)
  | _ => Raise AttributeError
  end.

Definition py_endswith (v : pyval) (suf : string) : outcome bool :=
  match v with
  | PStr s => Ok (str_endswith suf s)
  | _ => Raise AttributeError
  end.

(** The clock: [x < n] for a float [x] and an int [n] is exact, and
    [int(x)] truncates towards zero. *)
Definition Qltb (x y : Q) : bool :=
  (Qnum x * QDen y <? Qnum y * QDen x)%Z.

Definition float_lt_int (x : Q) (n : Z) : bool := Qltb x (inject_Z n).

Definition int_of_float (x : Q) : Z := Z.quot (Qnum x) (QDen x).

End Py.
Export Py.

(* ================================================================== *)
(** ** [posixpath]: the path functions the script calls *)
(* ================================================================== *)

Module PosixPath.

Definition is_slash (c : ascii) : bool := Ascii.eqb c "/"%char.

(** [s.split('/')] *)
Fixpoint split_slash (s : string) : list string :=
  match s with
  | EmptyString => [EmptyString]
  | String c s' =>
      if is_slash c then EmptyString :: split_slash s'
      else match split_slash s' with
           | h :: t => String c h :: t
           | [] => [String c EmptyString]
           end
  end.

(** ['/'.join(comps)] *)
Definition join_slash (comps : list string) : string := String.concat "/" comps.

(** [posixpath.join(a, b)] for one more component. *)
Definition join2 (a b : string) : string :=
  if str_startswith "/" b then b
  else if String.eqb a "" || str_endswith "/" a then a +:+ b
  else a +:+ "/" +:+ b.

(** [posixpath.join(a, *p)] *)
Definition join (a : string) (p : list string) : string := fold_left join2 p a.

(** Number of leading slashes [normpath] keeps: POSIX allows one or two,
    three or more count as one. *)
Definition initial_slashes (path : string) : nat :=
  if str_startswith "/" path then
    if str_startswith "//" path && negb (str_startswith "///" path) then 2%nat
    else 1%nat
  else 0%nat.

(** One turn of the loop of [normpath]; [stack] is [new_comps] with its
    last element first. *)
Definition norm_step (initial : nat) (stack : list string) (comp : string)
  : list string :=
  if String.eqb comp "" || String.eqb comp "." then stack
  else if negb (String.eqb comp "..")
          || (Nat.eqb initial 0 && match stack with [] => true | _ => false end)
          || match stack with top :: _ => String.eqb top ".." | [] => false end
       then comp :: stack
       else match stack with
            | _ :: rest => rest
            | [] => []
            end.

Definition normpath (path : string) : string :=
  if String.eqb path "" then "."
  else
    let initial := initial_slashes path in
    let comps := rev (fold_left (norm_step initial) (split_slash path) []) in
    let out := str_repeat initial "/" +:+ join_slash comps in
    if String.eqb out "" then "." else out.

Definition isabs (path : string) : bool := str_startswith "/" path.

(** [posixpath.abspath(path)] with [os.getcwd()] given. *)
Definition abspath (cwd path : string) : string :=
  normpath (if isabs path then path else join cwd [path]).

(** A component [normpath] keeps as it is: not empty, not ".", not "..",
    and without a slash. *)
Fixpoint no_slash (s : string) : bool :=
  match s with
  | EmptyString => true
  | String c s' => negb (is_slash c) && no_slash s'
  end.

Definition proper_component (c : string) : bool :=
  no_slash c && negb (String.eqb c "") && negb (String.eqb c ".")
  && negb (String.eqb c "..").

(** [posixpath.dirname] is used by [save_qwen_credentials] only to create
    the directory, which the file-system model does not represent. *)

End PosixPath.

(* ================================================================== *)
(** ** The [json] module: [json.dump(obj, f, indent=2)] and [json.load] *)
(* ================================================================== *)

Module Json.

Definition dquote : ascii := "034"%char.
Definition backslash : ascii := "092"%char.
Definition newline : ascii := "010"%char.

(** *** Encoder ([ensure_ascii=True], [indent=2], separators [","] and [": "]) *)

Definition hex_digit (n : nat) : ascii :=
  match n with
  | 0 => "0" | 1 => "1" | 2 => "2" | 3 => "3" | 4 => "4" | 5 => "5"
  | 6 => "6" | 7 => "7" | 8 => "8" | 9 => "9" | 10 => "a" | 11 => "b"
  | 12 => "c" | 13 => "d" | 14 => "e" | _ => "f"
  end%nat%char.

(** What [ESCAPE_ASCII] substitutes for one character: the short escapes,
    [\u00xx] outside the printable ASCII range, the character itself
    otherwise. *)
Definition escape_char (c : ascii) : string :=
  let n := nat_of_ascii c in
  if Ascii.eqb c dquote then String backslash (String dquote "")
  else if Ascii.eqb c backslash then String backslash (String backslash "")
  else if Ascii.eqb c newline then String backslash "n"
  else if Ascii.eqb c "013" then String backslash "r"
  else if Ascii.eqb c "009" then String backslash "t"
  else if Ascii.eqb c "008" then String backslash "b"
  else if Ascii.eqb c "012" then String backslash "f"
  else if (Nat.leb 32 n && Nat.leb n 126)%bool then String c ""
  else String backslash
         (String "u" (String "0" (String "0"
            (String (hex_digit (Nat.div n 16))
               (String (hex_digit (Nat.modulo n 16)) ""))))).

Fixpoint escape_body (s : string) : string :=
  match s with
  | EmptyString => EmptyString
  | String c s' => escape_char c +:+ escape_body s'
  end.

Definition encode_str (s : string) : string :=
  String dquote (escape_body s +:+ String dquote "").

(** [int.__repr__] *)
Definition int_repr (n : Z) : string := NilZero.string_of_int (Z.to_int n).

(** ["\n" + "  " * level] *)
Definition newline_indent (level : nat) : string :=
  String newline (str_repeat level "  ").

(** The items of a non-empty list or dict after the first one, up to and
    including the closing bracket; [enc] encodes a value one level in. *)
Section Items.
Variable enc : pyval -> string.
Variable level : nat.

Fixpoint list_tail (l : list pyval) : string :=
  match l with
  | [] => newline_indent level +:+ "]"
  | y :: ys => "," +:+ newline_indent (S level) +:+ enc y +:+ list_tail ys
  end.

Fixpoint dict_tail (l : list (string * pyval)) : string :=
  match l with
  | [] => newline_indent level +:+ "}"
  | (k, y) :: ys =>
      "," +:+ newline_indent (S level) +:+ encode_str k +:+ ": " +:+ enc y +:+
      dict_tail ys
  end.
End Items.

Fixpoint encode (level : nat) (v : pyval) : string :=
  match v with
  | PNone => "null"
  | PBool true => "true"
  | PBool false => "false"
  | PInt n => int_repr n
  | PStr s => encode_str s
  | PList [] => "[]"
  | PList (x :: xs) =>
      "[" +:+ newline_indent (S level) +:+ encode (S level) x +:+
      list_tail (encode (S level)) level xs
  | PDict [] => "{}"
  | PDict ((k, x) :: kxs) =>
      "{" +:+ newline_indent (S level) +:+ encode_str k +:+ ": " +:+
      encode (S level) x +:+ dict_tail (encode (S level)) level kxs
  end.

(** The same encoder without [indent], as the test suite calls it:
    separators [", "] and [": "], no line breaks. *)
Section CompactItems.
Variable enc : pyval -> string.

Fixpoint compact_list_tail (l : list pyval) : string :=
  match l with
  | [] => "]"
  | y :: ys => ", " +:+ enc y +:+ compact_list_tail ys
  end.

Fixpoint compact_dict_tail (l : list (string * pyval)) : string :=
  match l with
  | [] => "}"
  | (k, y) :: ys =>
      ", " +:+ encode_str k +:+ ": " +:+ enc y +:+ compact_dict_tail ys
  end.
End CompactItems.

Fixpoint encode_compact (v : pyval) : string :=
  match v with
  | PNone => "null"
  | PBool true => "true"
  | PBool false => "false"
  | PInt n => int_repr n
  | PStr s => encode_str s
  | PList [] => "[]"
  | PList (x :: xs) =>
      "[" +:+ encode_compact x +:+ compact_list_tail encode_compact xs
  | PDict [] => "{}"
  | PDict ((k, x) :: kxs) =>
      "{" +:+ encode_str k +:+ ": " +:+ encode_compact x +:+
      compact_dict_tail encode_compact kxs
  end.

(** The text [json.dump(obj, f)] writes. *)
Definition py_dumps_compact (v : pyval) : string := encode_compact v.

(** The text [json.dump(obj, f, indent=2)] writes. *)
Definition py_dumps (v : pyval) : string := encode 0 v.

(** *** Decoder *)

Definition is_ws (c : ascii) : bool :=
  Ascii.eqb c " " || Ascii.eqb c "009" || Ascii.eqb c newline || Ascii.eqb c "013".

Fixpoint skip_ws (s : string) : string :=
  match s with
  | EmptyString => EmptyString
  | String c r => if is_ws c then skip_ws r else s
  end.

Definition hex_value (c : ascii) : option nat :=
  let n := nat_of_ascii c in
  if (Nat.leb 48 n && Nat.leb n 57)%bool then Some (n - 48)%nat
  else if (Nat.leb 97 n && Nat.leb n 102)%bool then Some (n - 87)%nat
  else if (Nat.leb 65 n && Nat.leb n 70)%bool then Some (n - 55)%nat
  else None.

(** [\uXXXX]: the code point, when it is one of the modelled 0..255. *)
Definition hex4 (a b c d : ascii) : option ascii :=
  match hex_value a, hex_value b, hex_value c, hex_value d with
  | Some x, Some y, Some z, Some w =>
      if (Nat.eqb x 0 && Nat.eqb y 0)%bool then Some (ascii_of_nat (16 * z + w))
      else None
  | _, _, _, _ => None
  end.

(** The one-character escapes of [BACKSLASH]. *)
Definition unescape (c : ascii) : option ascii :=
  if Ascii.eqb c dquote then Some dquote
  else if Ascii.eqb c backslash then Some backslash
  else if Ascii.eqb c "/" then Some "/"%char
  else if Ascii.eqb c "b" then Some "008"%char
  else if Ascii.eqb c "f" then Some "012"%char
  else if Ascii.eqb c "n" then Some newline
  else if Ascii.eqb c "r" then Some "013"%char
  else if Ascii.eqb c "t" then Some "009"%char
  else None.

(** [py_scanstring] in strict mode, from just after the opening quote:
    the decoded string and the text after the closing quote. *)
Fixpoint scan_string (s : string) : option (string * string) :=
  match s with
  | EmptyString => None
  | String c r =>
      if Ascii.eqb c dquote then Some (EmptyString, r)
      else if Ascii.eqb c backslash then
        match r with
        | EmptyString => None
        | String e r1 =>
            if Ascii.eqb e "u" then
              match r1 with
              | String h1 (String h2 (String h3 (String h4 r2))) =>
                  match hex4 h1 h2 h3 h4 with
                  | Some ch =>
                      match scan_string r2 with
                      | Some (str, rest) => Some (String ch str, rest)
                      | None => None
                      end
                  | None => None
                  end
              | _ => None
              end
            else
              match unescape e with
              | Some ch =>
                  match scan_string r1 with
                  | Some (str, rest) => Some (String ch str, rest)
                  | None => None
                  end
              | None => None
              end
        end
      else if Nat.ltb (nat_of_ascii c) 32 then None
      else
        match scan_string r with
        | Some (str, rest) => Some (String c str, rest)
        | None => None
        end
  end.

Definition digit_con (c : ascii) : option (Decimal.uint -> Decimal.uint) :=
  match c with
  | "0" => Some Decimal.D0 | "1" => Some Decimal.D1 | "2" => Some Decimal.D2
  | "3" => Some Decimal.D3 | "4" => Some Decimal.D4 | "5" => Some Decimal.D5
  | "6" => Some Decimal.D6 | "7" => Some Decimal.D7 | "8" => Some Decimal.D8
  | "9" => Some Decimal.D9 | _ => None
  end%char.

Definition is_digit (c : ascii) : bool :=
  match digit_con c with Some _ => true | None => false end.

(** The longest run of digits at the head of [s]. *)
Fixpoint scan_digits (s : string) : Decimal.uint * string :=
  match s with
  | EmptyString => (Decimal.Nil, EmptyString)
  | String c r =>
      match digit_con c with
      | Some d => let (u, rest) := scan_digits r in (d u, rest)
      | None => (Decimal.Nil, s)
      end
  end.

Definition starts_with_digit (s : string) : bool :=
  match s with
  | String c _ => is_digit c
  | EmptyString => false
  end.

(** Whether [NUMBER_RE] goes on after the integer part: a fraction
    [.d] or an exponent [e[+-]d], which make the literal a float. *)
Definition float_tail (s : string) : bool :=
  match s with
  | String c r =>
      if Ascii.eqb c "." then starts_with_digit r
      else if Ascii.eqb c "e" || Ascii.eqb c "E" then
        match r with
        | String g r' =>
            if Ascii.eqb g "+" || Ascii.eqb g "-" then starts_with_digit r'
            else is_digit g
        | EmptyString => false
        end
      else false
  | EmptyString => false
  end.

(** The integer part of [NUMBER_RE]: an optional sign, then a single
    zero or a digit other than zero followed by any digits. *)
Definition scan_int_part (s : string) : option (Decimal.uint * string) :=
  match s with
  | String c r =>
      if Ascii.eqb c "0" then Some (Decimal.D0 Decimal.Nil, r)
      else if is_digit c then Some (scan_digits s)
      else None
  | EmptyString => None
  end.

Definition scan_number (s : string) : option (pyval * string) :=
  let (negative, s1) :=
    match s with
    | String c r => if Ascii.eqb c "-" then (true, r) else (false, s)
    | EmptyString => (false, s)
    end in
  match scan_int_part s1 with
  | Some (u, rest) =>
      if float_tail rest then None
      else Some (PInt (if negative then Z.opp (Z.of_uint u) else Z.of_uint u), rest)
  | None => None
  end.

(** [scan_once]: one JSON value at the head of [s] and the text after it.
    [fuel] bounds the nesting; every unit of it is spent after at least
    one character has been read. *)
Fixpoint parse_value (fuel : nat) (s : string) {struct fuel}
  : option (pyval * string) :=
  match fuel with
  | O => None
  | S f =>
      match s with
      | EmptyString => None
      | String c r =>
          if Ascii.eqb c dquote then
            match scan_string r with
            | Some (str, rest) => Some (PStr str, rest)
            | None => None
            end
          else if Ascii.eqb c "{" then
            match skip_ws r with
            | String c1 r1 =>
                if Ascii.eqb c1 "}" then Some (PDict [], r1)
                else if Ascii.eqb c1 dquote then
                  match parse_members f r1 with
                  | Some (pairs, rest) => Some (PDict (dict_of_pairs pairs), rest)
                  | None => None
                  end
                else None
            | EmptyString => None
            end
          else if Ascii.eqb c "[" then
            match skip_ws r with
            | String c1 r1 =>
                if Ascii.eqb c1 "]" then Some (PList [], r1)
                else
                  match parse_elements f (String c1 r1) with
                  | Some (values, rest) => Some (PList values, rest)
                  | None => None
                  end
            | EmptyString => None
            end
          else if String.prefix "null" s then Some (PNone, str_drop 4 s)
          else if String.prefix "true" s then Some (PBool true, str_drop 4 s)
          else if String.prefix "false" s then Some (PBool false, str_drop 5 s)
          else scan_number s
      end
  end

(** The loop of [JSONObject], from just after the opening quote of a key:
    the pairs in textual order. *)
with parse_members (fuel : nat) (s : string) {struct fuel}
  : option (pydict * string) :=
  match fuel with
  | O => None
  | S f =>
      match scan_string s with
      | None => None
      | Some (key, r1) =>
          match skip_ws r1 with
          | String c r2 =>
              if Ascii.eqb c ":" then
                match parse_value f (skip_ws r2) with
                | None => None
                | Some (v, r3) =>
                    match skip_ws r3 with
                    | String c' r4 =>
                        if Ascii.eqb c' "}" then Some ([(key, v)], r4)
                        else if Ascii.eqb c' "," then
                          match skip_ws r4 with
                          | String c'' r5 =>
                              if Ascii.eqb c'' dquote then
                                match parse_members f r5 with
                                | Some (pairs, rest) => Some ((key, v) :: pairs, rest)
                                | None => None
                                end
                              else None
                          | EmptyString => None
                          end
                        else None
                    | EmptyString => None
                    end
                end
              else None
          | EmptyString => None
          end
      end
  end

(** The loop of [JSONArray], from the first character of an element. *)
with parse_elements (fuel : nat) (s : string) {struct fuel}
  : option (list pyval * string) :=
  match fuel with
  | O => None
  | S f =>
      match parse_value f s with
      | None => None
      | Some (v, r1) =>
          match skip_ws r1 with
          | String c r2 =>
              if Ascii.eqb c "]" then Some ([v], r2)
              else if Ascii.eqb c "," then
                match parse_elements f (skip_ws r2) with
                | Some (values, rest) => Some (v :: values, rest)
                | None => None
                end
              else None
          | EmptyString => None
          end
      end
  end.

(** [json.loads(text)]: one value between optional white space; [None]
    where Python raises [JSONDecodeError] (or the text leaves the
    modelled fragment). *)
Definition py_loads (text : string) : option pyval :=
  match parse_value (S (String.length text)) (skip_ws text) with
  | Some (v, rest) =>
      match skip_ws rest with
      | EmptyString => Some v
      | String _ _ => None
      end
  | None => None
  end.

(** [v] is read back from its encoding at any level, before any text
    that cannot continue a number, with fuel for its size. *)
Definition reads_back (v : pyval) : Prop :=
  forall (level : nat) (rest : string) (fuel : nat),
    well_formed v = true ->
    (value_size v <= fuel)%nat ->
    starts_with_digit rest = false ->
    float_tail rest = false ->
    parse_value fuel (encode level v +:+ rest) = Some (v, rest).

(** The same for the compact encoding. *)
Definition reads_back_compact (v : pyval) : Prop :=
  forall (rest : string) (fuel : nat),
    well_formed v = true ->
    (value_size v <= fuel)%nat ->
    starts_with_digit rest = false ->
    float_tail rest = false ->
    parse_value fuel (encode_compact v +:+ rest) = Some (v, rest).

End Json.

(* ================================================================== *)
(** ** The environment and the world the script runs in *)
(* ================================================================== *)

Module Broker.

Import Json.

(** What [requests.post] is called with. *)
Record Request : Type := mkRequest {
  req_url : string;
  req_data : pydict;
  req_headers : list (string * string)
}.

(** What it returns: the status line and the parsed body, [None] when
    the body is not JSON ([response.json()] raises). *)
Record Response : Type := mkResponse {
  status_code : Z;
  json_body : option pyval
}.

Inductive post_result : Type :=
| PostRaises                 (* connection-level failure *)
| PostReturns (r : Response).

Record Env : Type := mkEnv {
  home : string;                      (* os.path.expanduser("~") *)
  cwd : string;                       (* os.getcwd() *)
  clock_ms : nat -> Q;                (* the n-th reading of time.time() * 1000 *)
  http_post : Request -> post_result; (* the token endpoint *)
  set_trace : option exn              (* ipdb.set_trace(): resumes, or raises *)
}.

Record World : Type := mkWorld {
  files : gmap string string;   (* path to text *)
  ticks : nat;                  (* clock readings so far *)
  posted : list Request         (* requests sent so far *)
}.

(** State and exceptions. *)
Definition M (A : Type) : Type := World -> outcome A * World.

Definition ret {A} (a : A) : M A := fun w => (Ok a, w).

Definition raise {A} (e : exn) : M A := fun w => (Raise e, w).

Definition bind {A B} (m : M A) (k : A -> M B) : M B :=
  fun w =>
    match m w with
    | (Ok a, w') => k a w'
    | (Raise e, w') => (Raise e, w')
    end.

Definition lift {A} (o : outcome A) : M A := fun w => (o, w).

Notation "'let*' x ':=' m 'in' k" := (bind m (fun x => k))
  (at level 10, x name, m at level 100, k at level 200).

Section WithEnv.

Variable env : Env.

(** [time.time() * 1000] *)
Definition time_ms : M Q :=
  fun w => (Ok (clock_ms env (ticks w)),
            mkWorld (files w) (S (ticks w)) (posted w)).

(** [requests.post(url, data=..., headers=...)] *)
Definition requests_post (r : Request) : M Response :=
  fun w =>
    let w' := mkWorld (files w) (ticks w) (posted w ++ [r]) in
    match http_post env r with
    | PostRaises => (Raise ConnectionError, w')
    | PostReturns resp => (Ok resp, w')
    end.

(** [response.raise_for_status()] *)
Definition raise_for_status (resp : Response) : M unit :=
  if (400 <=? status_code resp) && (status_code resp <? 600)
  then raise (HTTPError (status_code resp))
  else ret tt.

(** [response.json()] *)
Definition response_json (resp : Response) : M pyval :=
  match json_body resp with
  | Some v => ret v
  | None => raise JSONDecodeError
  end.

(** [import ipdb; ipdb.set_trace()] *)
Definition ipdb_set_trace : M unit :=
  match set_trace env with
  | None => ret tt
  | Some e => raise e
  end.

(** [open(path, 'r')] then [json.load(f)] *)
Definition read_json (path : string) : M pyval :=
  fun w =>
    match files w !! path with
    | None => (Raise (FileNotFoundError path), w)
    | Some text =>
        match py_loads text with
        | Some v => (Ok v, w)
        | None => (Raise JSONDecodeError, w)
        end
    end.

(** [open(path, 'w')] then [json.dump(obj, f, indent=2)] *)
Definition write_json (path : string) (obj : pyval) : M unit :=
  fun w => (Ok tt, mkWorld (<[path := py_dumps obj]> (files w)) (ticks w) (posted w)).

(* ================================================================== *)
(** ** The script *)
(* ================================================================== *)

Definition QWEN_OAUTH_BASE_URL : string := "https://chat.qwen.ai".
Definition QWEN_OAUTH_TOKEN_ENDPOINT : string :=
  QWEN_OAUTH_BASE_URL +:+ "/api/v1/oauth2/token".
Definition QWEN_OAUTH_CLIENT_ID : string := "f0304373b74a44d2b584a3fb70ca9e56".
Definition QWEN_DEFAULT_BASE_URL : string :=
  "https://dashscope.aliyuncs.com/compatible-mode/v1".
Definition QWEN_DIR : string := ".qwen".
Definition QWEN_CREDENTIAL_FILENAME : string := "oauth_creds.json".

Definition get_qwen_credential_path (custom_path : option string) : string :=
  match custom_path with
  | Some p =>
      if negb (String.eqb p "") then
        if str_startswith "~/" p
        then PosixPath.join (home env) [str_drop 2 p]
        else PosixPath.abspath (cwd env) p
      else PosixPath.join (home env) [QWEN_DIR; QWEN_CREDENTIAL_FILENAME]
  | None => PosixPath.join (home env) [QWEN_DIR; QWEN_CREDENTIAL_FILENAME]
  end.

Definition load_qwen_credentials (custom_path : option string) : M pyval :=
  let credential_path := get_qwen_credential_path custom_path in
  read_json credential_path.

Definition TOKEN_REFRESH_BUFFER_MS : Z := 30 * 1000.

Definition is_token_valid (credentials : pyval) : M bool :=
  let* present := lift (py_contains "expiry_date" credentials) in
  if negb present then ret false
  else
    let* now := time_ms in
    let* expiry := lift (py_getitem credentials "expiry_date") in
    let* limit := lift (py_sub_int expiry TOKEN_REFRESH_BUFFER_MS) in
    ret (float_lt_int now limit).

(** The request of lines 100 to 114, for the refresh token [tok]. *)
Definition token_request (tok : pyval) : Request :=
  let data := [("grant_type", PStr "refresh_token");
               ("refresh_token", tok);
               ("client_id", PStr QWEN_OAUTH_CLIENT_ID)] in
  mkRequest QWEN_OAUTH_TOKEN_ENDPOINT data
    [("Content-Type", "application/x-www-form-urlencoded");
     ("Accept", "application/json")].

(** The four fields [refresh_access_token] writes into the copy. *)
Definition refreshed_fields
  (access_token token_type refresh_token expiry_date : pyval) : pydict :=
  [("access_token", access_token);
   ("token_type", token_type);
   ("refresh_token", refresh_token);
   ("expiry_date", expiry_date)].

Definition refresh_access_token (credentials : pyval) : M pyval :=
  let* present := lift (py_contains "refresh_token" credentials) in
  let* missing :=
    (if negb present then ret true
     else let* tok := lift (py_getitem credentials "refresh_token") in
          ret (negb (py_truthy tok))) in
  if (missing : bool) then raise (ValueError NoRefreshToken)
  else
    let* tok := lift (py_getitem credentials "refresh_token") in
    let* response := requests_post (token_request tok) in
    let* _ := raise_for_status response in
    let* _ := ipdb_set_trace in
    let* token_data := response_json response in
    let* rejected := lift (py_contains "error" token_data) in
    if (rejected : bool) then
      let* err := lift (py_getitem token_data "error") in
      let* descr := lift (py_get token_data "error_description" (PStr "")) in
      raise (ValueError (TokenRefreshFailed err descr))
    else
      let* new_credentials := lift (py_copy credentials) in
      let* access_token := lift (py_getitem token_data "access_token") in
      let* token_type := lift (py_get token_data "token_type" (PStr "Bearer")) in
      let* old_refresh := lift (py_getitem credentials "refresh_token") in
      let* refresh_token := lift (py_get token_data "refresh_token" old_refresh) in
      let* now := time_ms in
      let* expires_in := lift (py_getitem token_data "expires_in") in
      let* lifetime := lift (py_mul_int expires_in 1000) in
      let* expiry_date := lift (py_int_add (int_of_float now) lifetime) in
      lift (py_update new_credentials
              (refreshed_fields access_token token_type refresh_token expiry_date)).

Definition save_qwen_credentials (credentials : pyval) (custom_path : option string)
  : M unit :=
  let credential_path := get_qwen_credential_path custom_path in
  write_json credential_path credentials.

(** Lines 183 to 186, on a [str]. *)
Definition with_scheme (base_url : string) : string :=
  if negb (str_startswith "http://" base_url || str_startswith "https://" base_url)
  then "https://" +:+ base_url
  else base_url.

Definition with_version (base_url : string) : string :=
  if negb (str_endswith "/v1" base_url) then base_url +:+ "/v1" else base_url.

(** Lines 182 to 192: the descriptor of a record. *)
Definition openapi_descriptor (credentials : pyval) : outcome pyval :=
  match py_get credentials "resource_url" (PStr QWEN_DEFAULT_BASE_URL) with
  | Raise e => Raise e
  | Ok (PStr url) =>
      let base_url := with_version (with_scheme url) in
      match py_getitem credentials "access_token" with
      | Raise e => Raise e
      | Ok api_key =>
          Ok (PDict [("api_key", api_key);
                     ("base_url", PStr base_url);
                     ("model", PStr "qwen3-coder-plus")])
      end
  | Ok _ => Raise AttributeError   (* no [startswith] on a value that is not a str *)
  end.

Definition get_openapi_credentials (custom_path : option string) : M pyval :=
  let* loaded := load_qwen_credentials custom_path in
  let* valid := is_token_valid loaded in
  let* credentials :=
    (if negb valid then
       let* refreshed := refresh_access_token loaded in
       let* _ := save_qwen_credentials refreshed custom_path in
       ret refreshed
     else ret loaded) in
  lift (openapi_descriptor credentials).


End WithEnv.

End Broker.

(* ================================================================== *)
(** ** Sample environments, records and files *)
(* ================================================================== *)

Module Examples.

Import Broker.

(** A token endpoint that answers every request with [status] and [body]. *)
Definition answering (status : Z) (body : option pyval) : Request -> post_result :=
  fun _ => PostReturns (mkResponse status body).

(** A machine whose clock reads 1700000000000.5 ms, with the breakpoint
    resumed. *)
Definition machine (post : Request -> post_result) : Env :=
  mkEnv "/home/user" "/work" (fun _ => 1700000000000500 # 1000)%Q post None.

Definition stale_record : pydict :=
  [("access_token", PStr "old");
   ("refresh_token", PStr "R");
   ("token_type", PStr "Bearer");
   ("expiry_date", PInt 1699999940000);
   ("resource_url", PStr "example.com/compat")].

Definition fresh_record : pydict :=
  [("access_token", PStr "tok");
   ("refresh_token", PStr "R");
   ("token_type", PStr "Bearer");
   ("expiry_date", PInt 1700000360000)].

(** The success body of the specification's mocked endpoint. *)
Definition good_body : pydict :=
  [("access_token", PStr "A"); ("expires_in", PInt 3600)].

(** A token endpoint that cannot be reached. *)
Definition offline : Request -> post_result := fun _ => PostRaises.

(** The same machine without the [ipdb] package: the breakpoint raises. *)
Definition machine_without_ipdb (post : Request -> post_result) : Env :=
  mkEnv "/home/user" "/work" (fun _ => 1700000000000500 # 1000)%Q post
    (Some (ModuleNotFoundError "ipdb")).

Definition default_path : string := "/home/user/.qwen/oauth_creds.json".



(** A world whose only file is the default credential file. *)
Definition world_with (text : string) : World :=
  mkWorld {[ default_path := text ]} 0 [].

End Examples.

(* ================================================================== *)
(** * Properties *)
(* ================================================================== *)

Import Json Broker.

(** ** The clock *)

Lemma Qltb_lt (x y : Q) : Qltb x y = true <-> (x < y)%Q.
Proof. unfold Qltb, Qlt. apply Z.ltb_lt. Qed.

Lemma float_lt_int_spec (x : Q) (n : Z) :
  float_lt_int x n = true <-> (x < inject_Z n)%Q.
Proof. unfold float_lt_int. apply Qltb_lt. Qed.

Lemma float_lt_int_false (x : Q) (n : Z) :
  float_lt_int x n = false <-> ~ (x < inject_Z n)%Q.
Proof.
  rewrite <- float_lt_int_spec. destruct (float_lt_int x n); split; congruence.
Qed.

(** Truncation stays within one unit of the reading. *)
Lemma int_of_float_bounds (x : Q) :
  (inject_Z (int_of_float x - 1) < x)%Q /\ (x < inject_Z (int_of_float x + 1))%Q.
Proof.
  destruct x as [n d]. unfold int_of_float, Qlt, inject_Z. cbn [Qnum Qden].
  pose proof (Z.quot_rem' n (Z.pos d)) as E.
  assert (Hd : 0 < Z.pos d) by lia.
  destruct (Z.le_gt_cases 0 n) as [Hn | Hn].
  - pose proof (Z.rem_bound_pos n (Z.pos d) Hn Hd). nia.
  - assert (Hn' : n <= 0) by lia.
    pose proof (Z.rem_bound_pos_neg n (Z.pos d) Hd Hn'). nia.
Qed.

(** ** Validity check *)

Section Validity.

Variable env : Env.

Lemma is_token_valid_absent (d : pydict) (w : World) :
  dict_get "expiry_date" d = None ->
  is_token_valid env (PDict d) w = (Ok false, w).
Proof.
  intros H. unfold is_token_valid, bind, lift, py_contains. rewrite H. reflexivity.
Qed.

Lemma is_token_valid_int (d : pydict) (w : World) (e : Z) :
  dict_get "expiry_date" d = Some (PInt e) ->
  is_token_valid env (PDict d) w =
    (Ok (float_lt_int (clock_ms env (ticks w)) (e - 30000)),
     mkWorld (files w) (S (ticks w)) (posted w)).
Proof.
  intros H. unfold is_token_valid, bind, lift, py_contains, py_getitem, time_ms.
  rewrite H. reflexivity.
Qed.

(** A value that is not a number under [expiry_date] makes the
    subtraction raise. *)
Lemma is_token_valid_str (d : pydict) (w : World) (s : string) :
  dict_get "expiry_date" d = Some (PStr s) ->
  fst (is_token_valid env (PDict d) w) = Raise TypeError.
Proof.
  intros H. unfold is_token_valid, bind, lift, py_contains, py_getitem, time_ms.
  rewrite H. reflexivity.
Qed.

End Validity.

(** C2. The validity check answers [False] on a record without
    [expiry_date]; on a record whose [expiry_date] is an integer it answers
    [True] exactly when [now_ms < expiry_date - 30000] and [False]
    otherwise.  In particular a token expiring 15000 ms from now is
    reported invalid and one expiring 360000 ms from now is reported
    valid. *)
Theorem is_token_valid_correct (env : Env) (d : pydict) (w : World) :
  let now_ms := clock_ms env (ticks w) in
  let verdict := fst (is_token_valid env (PDict d) w) in
  (dict_get "expiry_date" d = None -> verdict = Ok false) /\
  (forall expiry_date : Z,
      dict_get "expiry_date" d = Some (PInt expiry_date) ->
      (verdict = Ok true <-> (now_ms < inject_Z (expiry_date - 30000))%Q) /\
      (verdict = Ok false <-> ~ (now_ms < inject_Z (expiry_date - 30000))%Q)) /\
  (dict_get "expiry_date" d = Some (PInt (int_of_float now_ms + 15000)) ->
   verdict = Ok false) /\
  (dict_get "expiry_date" d = Some (PInt (int_of_float now_ms + 360000)) ->
   verdict = Ok true).
Proof.
  cbn zeta.
  assert (Hint : forall e, dict_get "expiry_date" d = Some (PInt e) ->
            fst (is_token_valid env (PDict d) w)
            = Ok (float_lt_int (clock_ms env (ticks w)) (e - 30000))).
  { intros e H. rewrite (is_token_valid_int env d w e H). reflexivity. }
  pose proof (int_of_float_bounds (clock_ms env (ticks w))) as [Hlo Hhi].
  split; [|split; [intros expiry_date H; split; split|split]].
  - intros H. rewrite (is_token_valid_absent env d w H). reflexivity.
  - rewrite (Hint _ H). intros E. injection E as E.
    apply float_lt_int_spec. exact E.
  - rewrite (Hint _ H). intros E. f_equal. apply float_lt_int_spec. exact E.
  - rewrite (Hint _ H). intros E. injection E as E.
    apply float_lt_int_false. exact E.
  - rewrite (Hint _ H). intros E. f_equal. apply float_lt_int_false. exact E.
  - intros H. rewrite (Hint _ H). f_equal. apply float_lt_int_false.
    intros Hlt. apply (Qlt_irrefl (clock_ms env (ticks w))).
    eapply Qlt_trans; [exact Hlt|].
    eapply Qle_lt_trans; [|exact Hlo].
    rewrite <- Zle_Qle. lia.
  - intros H. rewrite (Hint _ H). f_equal. apply float_lt_int_spec.
    eapply Qlt_le_trans; [exact Hhi|].
    rewrite <- Zle_Qle. lia.
Qed.

Lemma is_token_valid_correct_witness :
  let env := Examples.machine (Examples.answering 200 None) in
  let w := Examples.world_with "{}" in
  fst (is_token_valid env (PDict []) w) = Ok false /\
  fst (is_token_valid env (PDict [("expiry_date", PInt 1700000015000)]) w) = Ok false /\
  fst (is_token_valid env (PDict [("expiry_date", PInt 1700000360000)]) w) = Ok true.
Proof.
  split; [|split].
  - destruct (is_token_valid_correct (Examples.machine (Examples.answering 200 None))
                [] (Examples.world_with "{}")) as (H & _).
    apply H. reflexivity.
  - destruct (is_token_valid_correct (Examples.machine (Examples.answering 200 None))
                [("expiry_date", PInt 1700000015000)] (Examples.world_with "{}"))
      as (_ & _ & H & _).
    apply H. reflexivity.
  - destruct (is_token_valid_correct (Examples.machine (Examples.answering 200 None))
                [("expiry_date", PInt 1700000360000)] (Examples.world_with "{}"))
      as (_ & _ & _ & H).
    apply H. reflexivity.
Defined.

(** ** dict facts *)

Lemma dict_get_set (k k' : string) (v : pyval) (d : pydict) :
  dict_get k (dict_set k' v d) = if String.eqb k k' then Some v else dict_get k d.
Proof.
  induction d as [|[k0 v0] d IH]; cbn.
  - reflexivity.
  - destruct (String.eqb k' k0) eqn:E0; cbn.
    + apply String.eqb_eq in E0. subst k0. destruct (String.eqb k k'); reflexivity.
    + destruct (String.eqb k k0) eqn:E1.
      * apply String.eqb_eq in E1. subst k0.
        rewrite String.eqb_sym, E0. reflexivity.
      * apply IH.
Qed.

Lemma dict_get_app (k : string) (d1 d2 : pydict) :
  dict_get k (d1 ++ d2) =
    match dict_get k d1 with
    | Some v => Some v
    | None => dict_get k d2
    end.
Proof.
  induction d1 as [|[k0 v0] d1 IH]; cbn; [reflexivity|].
  destruct (String.eqb k k0); [reflexivity | apply IH].
Qed.

(** After [d.update(other)] a key holds the last value [other] gives it,
    and its old value when [other] does not mention it. *)
Lemma dict_get_update (k : string) (other d : pydict) :
  dict_get k (dict_update d other) =
    match dict_get k (rev other) with
    | Some v => Some v
    | None => dict_get k d
    end.
Proof.
  unfold dict_update. revert d.
  induction other as [|[k1 v1] other IH]; intros d; cbn [fold_left fst snd rev].
  - reflexivity.
  - rewrite IH, dict_get_app, dict_get_set. cbn.
    destruct (dict_get k (rev other)); [reflexivity|].
    destruct (String.eqb k k1); reflexivity.
Qed.



(** ** Refresh *)

Ltac unfold_script :=
  unfold get_openapi_credentials, save_qwen_credentials, load_qwen_credentials,
    refresh_access_token, is_token_valid, requests_post, raise_for_status,
    response_json, ipdb_set_trace, time_ms, read_json, write_json,
    bind, lift, ret, raise in *.

(** Case analysis along the script: split every test the goal or a
    hypothesis still branches on, and drop the impossible branches. *)
Ltac crunch :=
  repeat (cbn [fst snd files posted ticks] in *;
          match goal with
          | H : Raise _ = Ok _ |- _ => discriminate H
          | H : Ok _ = Raise _ |- _ => discriminate H
          | H : (Raise _, _) = (Ok _, _) |- _ => discriminate H
          | H : (Ok _, _) = (Raise _, _) |- _ => discriminate H
          | H : Ok _ = Ok _ |- _ => injection H as H; try subst
          | H : Raise _ = Raise _ |- _ => injection H as H; try subst
          | H : (_, _) = (_, _) |- _ => injection H as ? ?; try subst
          | H : context [match ?x with _ => _ end] |- _ => destruct x eqn:?
          | |- context [match ?x with _ => _ end] => destruct x eqn:?
          end).

Section Refresh.

Variable env : Env.

(** No path through [refresh_access_token] touches a file. *)
Lemma refresh_keeps_files (c : pyval) (w : World) :
  files (snd (refresh_access_token env c w)) = files w.
Proof. unfold_script. crunch; reflexivity. Qed.

(** A successful refresh started from a dict that holds a refresh token,
    and its result is that dict updated with the four fields, after
    exactly one request and one clock reading. *)
Lemma refresh_ok_inv (c new : pyval) (w w' : World) :
  refresh_access_token env c w = (Ok new, w') ->
  exists d tok a t r e,
    c = PDict d /\
    dict_get "refresh_token" d = Some tok /\
    new = PDict (dict_update d (refreshed_fields a t r e)) /\
    w' = mkWorld (files w) (S (ticks w)) (posted w ++ [token_request tok]).
Proof.
  intros H. unfold_script.
  destruct c as [| | | |l|d]; cbn in H; try discriminate H.
  - crunch.
  - crunch.
  - destruct (dict_get "refresh_token" d) as [tok|] eqn:Htok; cbn in H;
      [|discriminate H].
    destruct (py_truthy tok); cbn in H; [|discriminate H].
    crunch. unfold py_update, py_copy in *. crunch.
    match goal with
    | |- context [dict_set "expiry_date" ?e
                    (dict_set "refresh_token" ?r
                       (dict_set "token_type" ?t (dict_set "access_token" ?a _)))] =>
        exists d, tok, a, t, r, e
    end.
    repeat split; assumption || reflexivity.
Qed.

(** The guard of line 96 on a dict. *)
Lemma refresh_guard_passes (d : pydict) (tok : pyval) (w : World) :
  dict_get "refresh_token" d = Some tok ->
  py_truthy tok = true ->
  refresh_access_token env (PDict d) w =
    (let* response := requests_post env (token_request tok) in
     let* _ := raise_for_status response in
     let* _ := ipdb_set_trace env in
     let* token_data := response_json response in
     let* rejected := lift (py_contains "error" token_data) in
     if (rejected : bool) then
       let* err := lift (py_getitem token_data "error") in
       let* descr := lift (py_get token_data "error_description" (PStr "")) in
       raise (ValueError (TokenRefreshFailed err descr))
     else
       let* new_credentials := lift (py_copy (PDict d)) in
       let* access_token := lift (py_getitem token_data "access_token") in
       let* token_type := lift (py_get token_data "token_type" (PStr "Bearer")) in
       let* old_refresh := lift (py_getitem (PDict d) "refresh_token") in
       let* refresh_token := lift (py_get token_data "refresh_token" old_refresh) in
       let* now := time_ms env in
       let* expires_in := lift (py_getitem token_data "expires_in") in
       let* lifetime := lift (py_mul_int expires_in 1000) in
       let* expiry_date := lift (py_int_add (int_of_float now) lifetime) in
       lift (py_update new_credentials
               (refreshed_fields access_token token_type refresh_token expiry_date))) w.
Proof.
  intros Htok Htruthy.
  unfold refresh_access_token, bind at 1 2, lift at 1, py_contains.
  rewrite Htok. cbn [negb]. unfold bind at 1, lift at 1, py_getitem at 1.
  rewrite Htok. unfold ret. rewrite Htruthy. cbn [negb].
  unfold bind at 1, lift at 1, py_getitem at 1. rewrite Htok. reflexivity.
Qed.

(** Up to the parsed body: a 2xx answer whose body is JSON, with the
    debugger session resumed. *)
Lemma refresh_reaches_body (d : pydict) (tok : pyval) (w : World)
      (status : Z) (body : pydict) :
  dict_get "refresh_token" d = Some tok ->
  py_truthy tok = true ->
  http_post env (token_request tok) =
    PostReturns (mkResponse status (Some (PDict body))) ->
  200 <= status < 300 ->
  set_trace env = None ->
  dict_get "error" body = None ->
  refresh_access_token env (PDict d) w =
    let w1 := mkWorld (files w) (ticks w) (posted w ++ [token_request tok]) in
    match dict_get "access_token" body with
    | None => (Raise (KeyError "access_token"), w1)
    | Some access =>
        let w2 := mkWorld (files w) (S (ticks w)) (posted w ++ [token_request tok]) in
        match dict_get "expires_in" body with
        | None => (Raise (KeyError "expires_in"), w2)
        | Some expires_in =>
            match py_mul_int expires_in 1000 with
            | Raise e => (Raise e, w2)
            | Ok lifetime =>
                match py_int_add (int_of_float (clock_ms env (ticks w))) lifetime with
                | Raise e => (Raise e, w2)
                | Ok expiry =>
                    (Ok (PDict (dict_update d
                           (refreshed_fields access
                              (match dict_get "token_type" body with
                               | Some t => t | None => PStr "Bearer" end)
                              (match dict_get "refresh_token" body with
                               | Some r => r | None => tok end)
                              expiry))), w2)
                end
            end
        end
    end.
Proof.
  intros Htok Htruthy Hpost Hstatus Htrace Herr.
  rewrite (refresh_guard_passes d tok w Htok Htruthy).
  unfold bind at 1. unfold requests_post. rewrite Hpost.
  unfold bind at 1. unfold raise_for_status. cbn [status_code].
  replace ((400 <=? status) && (status <? 600)) with false
    by (symmetry; apply andb_false_iff; left; apply Z.leb_gt; lia).
  unfold ret at 1. unfold bind at 1, ipdb_set_trace. rewrite Htrace.
  unfold ret at 1. unfold bind at 1, response_json. cbn [json_body].
  unfold ret at 1. unfold bind at 1, lift at 1, py_contains. rewrite Herr.
  unfold bind, lift, py_copy, py_getitem, py_get, py_update, time_ms.
  rewrite Htok.
  destruct (dict_get "access_token" body) as [access|]; [|reflexivity].
  cbn [ticks files posted].
  destruct (dict_get "expires_in" body) as [expires_in|]; [|reflexivity].
  destruct (py_mul_int expires_in 1000) as [lifetime|]; [|reflexivity].
  destruct (py_int_add _ lifetime); reflexivity.
Qed.

End Refresh.


(** C5. A record whose [refresh_token] is absent or the empty string makes
    [refresh_access_token] raise the "no refresh token" [ValueError]; the
    world is left as it was, so no request has been sent. *)
Theorem refresh_without_token_raises (env : Env) (d : pydict) (w : World) :
  dict_get "refresh_token" d = None \/ dict_get "refresh_token" d = Some (PStr "") ->
  fst (refresh_access_token env (PDict d) w) = Raise (ValueError NoRefreshToken) /\
  posted (snd (refresh_access_token env (PDict d) w)) = posted w /\
  snd (refresh_access_token env (PDict d) w) = w.
Proof.
  intros [H | H]; unfold refresh_access_token, bind, lift, ret, raise, py_contains,
    py_getitem; rewrite H; cbn; auto.
Qed.

Lemma refresh_without_token_raises_witness :
  fst (refresh_access_token (Examples.machine (Examples.answering 200 None))
         (PDict [("access_token", PStr "old"); ("refresh_token", PStr "")])
         (Examples.world_with "{}"))
  = Raise (ValueError NoRefreshToken).
Proof.
  apply (refresh_without_token_raises
           (Examples.machine (Examples.answering 200 None))
           [("access_token", PStr "old"); ("refresh_token", PStr "")]
           (Examples.world_with "{}")).
  right. reflexivity.
Defined.

(** C1, as amended. For a record whose refresh token is present and
    true, a 2xx answer whose body is a JSON object without [error] that
    holds [access_token] and an integer [expires_in], and a resumed
    debugger session, [refresh_access_token] returns the input record with
    exactly four fields overwritten: [access_token] from the body,
    [token_type] from the body or "Bearer", [refresh_token] from the body
    or kept, and [expiry_date = int(now_ms) + expires_in * 1000]; every
    other key keeps its value. *)
Theorem refresh_overwrites_four_fields
  (env : Env) (d : pydict) (w : World) (tok : pyval) (status : Z)
  (body : pydict) (access : pyval) (n : Z) :
  dict_get "refresh_token" d = Some tok ->
  py_truthy tok = true ->
  http_post env (token_request tok) =
    PostReturns (mkResponse status (Some (PDict body))) ->
  200 <= status < 300 ->
  set_trace env = None ->
  dict_get "error" body = None ->
  dict_get "access_token" body = Some access ->
  dict_get "expires_in" body = Some (PInt n) ->
  exists new : pydict,
    fst (refresh_access_token env (PDict d) w) = Ok (PDict new) /\
    dict_get "access_token" new = Some access /\
    dict_get "token_type" new =
      Some (match dict_get "token_type" body with
            | Some t => t | None => PStr "Bearer" end) /\
    dict_get "refresh_token" new =
      Some (match dict_get "refresh_token" body with
            | Some r => r | None => tok end) /\
    dict_get "expiry_date" new =
      Some (PInt (int_of_float (clock_ms env (ticks w)) + n * 1000)) /\
    (forall k : string,
        k <> "access_token" -> k <> "token_type" ->
        k <> "refresh_token" -> k <> "expiry_date" ->
        dict_get k new = dict_get k d).
Proof.
  intros Htok Htruthy Hpost Hstatus Htrace Herr Haccess Hexp.
  rewrite (refresh_reaches_body env d tok w status body
             Htok Htruthy Hpost Hstatus Htrace Herr).
  rewrite Haccess, Hexp. cbn [py_mul_int py_int_add fst].
  eexists. split; [reflexivity|].
  unfold refreshed_fields.
  repeat split; try (rewrite dict_get_update; reflexivity).
  intros k H1 H2 H3 H4. rewrite dict_get_update. cbn.
  apply String.eqb_neq in H1, H2, H3, H4. rewrite H1, H2, H3, H4. reflexivity.
Qed.

Lemma refresh_overwrites_four_fields_witness :
  exists new : pydict,
    fst (refresh_access_token
           (Examples.machine (Examples.answering 200 (Some (PDict Examples.good_body))))
           (PDict Examples.stale_record) (Examples.world_with "{}")) = Ok (PDict new) /\
    dict_get "access_token" new = Some (PStr "A") /\
    dict_get "token_type" new = Some (PStr "Bearer") /\
    dict_get "refresh_token" new = Some (PStr "R") /\
    dict_get "expiry_date" new = Some (PInt (1700000000000 + 3600 * 1000)) /\
    dict_get "resource_url" new = Some (PStr "example.com/compat").
Proof.
  destruct (refresh_overwrites_four_fields
              (Examples.machine (Examples.answering 200 (Some (PDict Examples.good_body))))
              Examples.stale_record (Examples.world_with "{}") (PStr "R") 200
              Examples.good_body (PStr "A") 3600)
    as (new & H0 & H1 & H2 & H3 & H4 & H5);
    try reflexivity; try lia.
  exists new. repeat split; try assumption.
  rewrite H5 by discriminate. reflexivity.
Defined.

(** The claim as stated fails: a 200 answer whose body is the empty JSON
    object has no [error] field, yet [refresh_access_token] returns no
    record. *)
Lemma refresh_empty_body_raises :
  let env := Examples.machine (Examples.answering 200 (Some (PDict []))) in
  dict_get "refresh_token" Examples.stale_record = Some (PStr "R") /\
  http_post env (token_request (PStr "R")) =
    PostReturns (mkResponse 200 (Some (PDict []))) /\
  dict_get "error" [] = None /\
  fst (refresh_access_token env (PDict Examples.stale_record)
         (Examples.world_with "{}")) = Raise (KeyError "access_token").
Proof. repeat split. Qed.

(** C10. On a 2xx answer whose body has no [error] field, the lookups of
    [access_token] and [expires_in] are unguarded: a body without
    [access_token] raises [KeyError "access_token"], and a body with it
    but without [expires_in] raises [KeyError "expires_in"], whatever
    [token_type] and [refresh_token] are (these two have defaults). *)
Theorem refresh_unguarded_lookups
  (env : Env) (d : pydict) (w : World) (tok : pyval) (status : Z) (body : pydict) :
  dict_get "refresh_token" d = Some tok ->
  py_truthy tok = true ->
  http_post env (token_request tok) =
    PostReturns (mkResponse status (Some (PDict body))) ->
  200 <= status < 300 ->
  set_trace env = None ->
  dict_get "error" body = None ->
  (dict_get "access_token" body = None ->
   fst (refresh_access_token env (PDict d) w) = Raise (KeyError "access_token")) /\
  (dict_get "access_token" body <> None ->
   dict_get "expires_in" body = None ->
   fst (refresh_access_token env (PDict d) w) = Raise (KeyError "expires_in")).
Proof.
  intros Htok Htruthy Hpost Hstatus Htrace Herr.
  rewrite (refresh_reaches_body env d tok w status body
             Htok Htruthy Hpost Hstatus Htrace Herr).
  split.
  - intros ->. reflexivity.
  - intros Ha ->. destruct (dict_get "access_token" body); [reflexivity | congruence].
Qed.

Lemma refresh_unguarded_lookups_witness :
  fst (refresh_access_token
         (Examples.machine (Examples.answering 200 (Some (PDict [("expires_in", PInt 3600)]))))
         (PDict Examples.stale_record) (Examples.world_with "{}"))
    = Raise (KeyError "access_token") /\
  fst (refresh_access_token
         (Examples.machine (Examples.answering 200 (Some (PDict [("access_token", PStr "A")]))))
         (PDict Examples.stale_record) (Examples.world_with "{}"))
    = Raise (KeyError "expires_in").
Proof.
  split.
  - apply (refresh_unguarded_lookups
             (Examples.machine (Examples.answering 200 (Some (PDict [("expires_in", PInt 3600)]))))
             Examples.stale_record (Examples.world_with "{}") (PStr "R") 200
             [("expires_in", PInt 3600)]); try reflexivity; lia.
  - apply (refresh_unguarded_lookups
             (Examples.machine (Examples.answering 200 (Some (PDict [("access_token", PStr "A")]))))
             Examples.stale_record (Examples.world_with "{}") (PStr "R") 200
             [("access_token", PStr "A")]); try reflexivity; try lia.
    discriminate.
Defined.


(** ** The broker *)

Section Orchestration.

Variable env : Env.

Lemma load_keeps_world (custom_path : option string) (w : World) :
  snd (load_qwen_credentials env custom_path w) = w.
Proof. unfold_script. crunch; reflexivity. Qed.

Lemma is_token_valid_keeps_files (c : pyval) (w : World) :
  files (snd (is_token_valid env c w)) = files w /\
  posted (snd (is_token_valid env c w)) = posted w.
Proof. unfold_script. crunch; split; reflexivity. Qed.

(** The three ways through [get_openapi_credentials] once the file has
    been loaded. *)
Lemma get_openapi_credentials_valid (custom_path : option string) (w w1 : World)
      (loaded : pyval) :
  fst (load_qwen_credentials env custom_path w) = Ok loaded ->
  is_token_valid env loaded w = (Ok true, w1) ->
  get_openapi_credentials env custom_path w = (openapi_descriptor loaded, w1).
Proof.
  intros Hload Hvalid.
  pose proof (load_keeps_world custom_path w) as Hw.
  unfold get_openapi_credentials, bind at 1.
  destruct (load_qwen_credentials env custom_path w) as [o w0].
  cbn [fst snd] in Hload, Hw. subst o w0.
  unfold bind at 1. rewrite Hvalid. reflexivity.
Qed.

Lemma get_openapi_credentials_stale (custom_path : option string) (w w1 : World)
      (loaded : pyval) :
  fst (load_qwen_credentials env custom_path w) = Ok loaded ->
  is_token_valid env loaded w = (Ok false, w1) ->
  get_openapi_credentials env custom_path w =
    match refresh_access_token env loaded w1 with
    | (Raise e, w2) => (Raise e, w2)
    | (Ok refreshed, w2) =>
        (openapi_descriptor refreshed,
         mkWorld (<[get_qwen_credential_path env custom_path := py_dumps refreshed]>
                    (files w2)) (ticks w2) (posted w2))
    end.
Proof.
  intros Hload Hvalid.
  pose proof (load_keeps_world custom_path w) as Hw.
  unfold get_openapi_credentials, bind at 1.
  destruct (load_qwen_credentials env custom_path w) as [o w0].
  cbn [fst snd] in Hload, Hw. subst o w0.
  unfold bind at 1. rewrite Hvalid. cbn [negb].
  unfold bind, save_qwen_credentials, write_json, ret, lift.
  destruct (refresh_access_token env loaded w1) as [[refreshed|e] w2]; reflexivity.
Qed.

End Orchestration.

(** C4. When the loaded record is stale and the refresh raises, whatever
    the cause, [get_openapi_credentials] raises the same exception and the
    files are exactly those it started with: nothing is saved before a
    refresh has succeeded. *)
Theorem failed_refresh_saves_nothing
  (env : Env) (custom_path : option string) (w : World) (loaded : pyval) (e : exn) :
  fst (load_qwen_credentials env custom_path w) = Ok loaded ->
  fst (is_token_valid env loaded w) = Ok false ->
  fst (refresh_access_token env loaded (snd (is_token_valid env loaded w))) = Raise e ->
  fst (get_openapi_credentials env custom_path w) = Raise e /\
  files (snd (get_openapi_credentials env custom_path w)) = files w.
Proof.
  intros Hload Hstale Hfail.
  destruct (is_token_valid env loaded w) as [o w1] eqn:Hvalid.
  cbn [fst snd] in Hstale, Hfail. subst o.
  rewrite (get_openapi_credentials_stale env custom_path w w1 loaded Hload Hvalid).
  pose proof (refresh_keeps_files env loaded w1) as Hfiles.
  pose proof (is_token_valid_keeps_files env loaded w) as [Hf1 _].
  rewrite Hvalid in Hf1. cbn [fst snd] in Hf1.
  destruct (refresh_access_token env loaded w1) as [[refreshed|e'] w2].
  - discriminate Hfail.
  - cbn [fst snd] in *. injection Hfail as ->. split; congruence.
Qed.

Lemma failed_refresh_saves_nothing_witness :
  let env := Examples.machine (Examples.answering 401 None) in
  let w := Examples.world_with (py_dumps (PDict Examples.stale_record)) in
  fst (get_openapi_credentials env None w) = Raise (HTTPError 401) /\
  files (snd (get_openapi_credentials env None w)) = files w.
Proof.
  apply (failed_refresh_saves_nothing
           (Examples.machine (Examples.answering 401 None)) None
           (Examples.world_with (py_dumps (PDict Examples.stale_record)))
           (PDict Examples.stale_record) (HTTPError 401));
    vm_compute; reflexivity.
Defined.

(** The causes of a failed refresh the specification lists, one by one,
    after the guard on the refresh token. *)
Lemma refresh_http_error (env : Env) (d : pydict) (w : World) (tok : pyval)
      (status : Z) (body : option pyval) :
  dict_get "refresh_token" d = Some tok ->
  py_truthy tok = true ->
  http_post env (token_request tok) = PostReturns (mkResponse status body) ->
  400 <= status < 600 ->
  fst (refresh_access_token env (PDict d) w) = Raise (HTTPError status).
Proof.
  intros Htok Htruthy Hpost Hstatus.
  rewrite (refresh_guard_passes env d tok w Htok Htruthy).
  unfold bind at 1. unfold requests_post. rewrite Hpost.
  unfold bind at 1. unfold raise_for_status. cbn [status_code].
  replace ((400 <=? status) && (status <? 600)) with true; [reflexivity|].
  symmetry. apply andb_true_iff. split; [apply Z.leb_le | apply Z.ltb_lt]; lia.
Qed.

Lemma refresh_network_failure (env : Env) (d : pydict) (w : World) (tok : pyval) :
  dict_get "refresh_token" d = Some tok ->
  py_truthy tok = true ->
  http_post env (token_request tok) = PostRaises ->
  fst (refresh_access_token env (PDict d) w) = Raise ConnectionError.
Proof.
  intros Htok Htruthy Hpost.
  rewrite (refresh_guard_passes env d tok w Htok Htruthy).
  unfold bind at 1. unfold requests_post. rewrite Hpost. reflexivity.
Qed.

Lemma refresh_rejected (env : Env) (d : pydict) (w : World) (tok : pyval)
      (status : Z) (body : pydict) (err : pyval) :
  dict_get "refresh_token" d = Some tok ->
  py_truthy tok = true ->
  http_post env (token_request tok) =
    PostReturns (mkResponse status (Some (PDict body))) ->
  200 <= status < 300 ->
  set_trace env = None ->
  dict_get "error" body = Some err ->
  fst (refresh_access_token env (PDict d) w) =
    Raise (ValueError (TokenRefreshFailed err
             (match dict_get "error_description" body with
              | Some descr => descr | None => PStr "" end))).
Proof.
  intros Htok Htruthy Hpost Hstatus Htrace Herr.
  rewrite (refresh_guard_passes env d tok w Htok Htruthy).
  unfold bind at 1. unfold requests_post. rewrite Hpost.
  unfold bind at 1. unfold raise_for_status. cbn [status_code].
  replace ((400 <=? status) && (status <? 600)) with false
    by (symmetry; apply andb_false_iff; left; apply Z.leb_gt; lia).
  unfold ret at 1. unfold bind at 1, ipdb_set_trace. rewrite Htrace.
  unfold ret at 1. unfold bind at 1, response_json. cbn [json_body].
  unfold ret at 1. unfold bind at 1, lift at 1, py_contains. rewrite Herr.
  unfold bind, lift, py_getitem, py_get, raise. rewrite Herr. reflexivity.
Qed.

(** C6. When the loaded record is valid at the current time,
    [get_openapi_credentials] answers with the descriptor of the loaded
    record itself; no file is written and no request is sent. *)
Theorem valid_record_needs_no_refresh
  (env : Env) (custom_path : option string) (w : World) (loaded : pyval) :
  fst (load_qwen_credentials env custom_path w) = Ok loaded ->
  fst (is_token_valid env loaded w) = Ok true ->
  fst (get_openapi_credentials env custom_path w) = openapi_descriptor loaded /\
  files (snd (get_openapi_credentials env custom_path w)) = files w /\
  posted (snd (get_openapi_credentials env custom_path w)) = posted w.
Proof.
  intros Hload Hvalid.
  pose proof (is_token_valid_keeps_files env loaded w) as [Hf Hp].
  destruct (is_token_valid env loaded w) as [o w1] eqn:E.
  cbn [fst snd] in Hvalid, Hf, Hp. subst o.
  rewrite (get_openapi_credentials_valid env custom_path w w1 loaded Hload E).
  cbn [fst snd]. auto.
Qed.

Lemma valid_record_needs_no_refresh_witness :
  let env := Examples.machine (Examples.answering 500 None) in
  let w := Examples.world_with (py_dumps (PDict Examples.fresh_record)) in
  fst (get_openapi_credentials env None w) =
    Ok (PDict [("api_key", PStr "tok");
               ("base_url", PStr "https://dashscope.aliyuncs.com/compatible-mode/v1");
               ("model", PStr "qwen3-coder-plus")]) /\
  files (snd (get_openapi_credentials env None w)) = files w /\
  posted (snd (get_openapi_credentials env None w)) = [].
Proof.
  apply (valid_record_needs_no_refresh
           (Examples.machine (Examples.answering 500 None)) None
           (Examples.world_with (py_dumps (PDict Examples.fresh_record)))
           (PDict Examples.fresh_record));
    vm_compute; reflexivity.
Defined.

(** ** The descriptor *)

Lemma str_endswith_app (suf s : string) : str_endswith suf (s +:+ suf) = true.
Proof.
  induction s as [|c s IH].
  - change ("" +:+ suf) with suf.
    destruct suf; cbn [str_endswith]; rewrite String.eqb_refl; reflexivity.
  - change (String c s +:+ suf) with (String c (s +:+ suf)).
    cbn [str_endswith]. rewrite IH. apply orb_true_r.
Qed.

Lemma str_startswith_app (p s t : string) :
  str_startswith p s = true -> str_startswith p (s +:+ t) = true.
Proof.
  unfold str_startswith. revert s.
  induction p as [|a p IH]; intros s H.
  - destruct (s +:+ t); reflexivity.
  - destruct s as [|b s]; [discriminate H|].
    change (String b s +:+ t) with (String b (s +:+ t)).
    cbn [String.prefix] in *.
    destruct (Ascii.ascii_dec a b); [auto | discriminate].
Qed.

Lemma str_startswith_self (p s : string) : str_startswith p (p +:+ s) = true.
Proof.
  unfold str_startswith. induction p as [|a p IH].
  - destruct ("" +:+ s); reflexivity.
  - change (String a p +:+ s) with (String a (p +:+ s)). cbn [String.prefix].
    destruct (Ascii.ascii_dec a a); [exact IH | congruence].
Qed.

Lemma with_version_ends (s : string) : str_endswith "/v1" (with_version s) = true.
Proof.
  unfold with_version. destruct (str_endswith "/v1" s) eqn:E; cbn [negb].
  - exact E.
  - apply str_endswith_app.
Qed.

Lemma with_scheme_has_scheme (s : string) :
  str_startswith "http://" (with_scheme s) || str_startswith "https://" (with_scheme s)
  = true.
Proof.
  unfold with_scheme.
  destruct (str_startswith "http://" s || str_startswith "https://" s) eqn:E; cbn [negb].
  - exact E.
  - rewrite (str_startswith_self "https://" s). apply orb_true_r.
Qed.

Lemma base_url_shape (s : string) :
  str_endswith "/v1" (with_version (with_scheme s)) = true /\
  (str_startswith "http://" (with_version (with_scheme s)) = true \/
   str_startswith "https://" (with_version (with_scheme s)) = true).
Proof.
  split; [apply with_version_ends|].
  pose proof (with_scheme_has_scheme s) as H. apply orb_true_iff in H.
  unfold with_version. destruct (negb _); [|exact H].
  destruct H as [H | H]; [left | right]; apply str_startswith_app; exact H.
Qed.

(** What a descriptor tells about the record it was made from. *)
Lemma openapi_descriptor_inv (c r : pyval) :
  openapi_descriptor c = Ok r ->
  exists d url api,
    c = PDict d /\
    (dict_get "resource_url" d = Some (PStr url) \/
     (dict_get "resource_url" d = None /\ url = QWEN_DEFAULT_BASE_URL)) /\
    dict_get "access_token" d = Some api /\
    r = PDict [("api_key", api);
               ("base_url", PStr (with_version (with_scheme url)));
               ("model", PStr "qwen3-coder-plus")].
Proof.
  unfold openapi_descriptor, py_get, py_getitem. intros H.
  destruct c as [| | | | |d]; try discriminate H.
  destruct (dict_get "resource_url" d) as [[| | |url| |]|] eqn:Hurl; try discriminate H.
  - destruct (dict_get "access_token" d) as [api|] eqn:Hapi; [|discriminate H].
    injection H as <-. exists d, url, api. auto.
  - destruct (dict_get "access_token" d) as [api|] eqn:Hapi; [|discriminate H].
    injection H as <-. exists d, QWEN_DEFAULT_BASE_URL, api. auto.
Qed.

(** C3. Whenever [get_openapi_credentials] returns a descriptor, its
    [base_url] is computed from the loaded record: start from
    [resource_url] if present, else from the default; prefix "https://"
    if it starts with neither "http://" nor "https://"; append "/v1" if
    it does not end with it.  The result ends with "/v1" and starts with
    an explicit scheme, for every [resource_url] string. *)
Theorem base_url_is_normalized
  (env : Env) (custom_path : option string) (w : World) (r : pyval) :
  fst (get_openapi_credentials env custom_path w) = Ok r ->
  exists (d : pydict) (start : string),
    fst (load_qwen_credentials env custom_path w) = Ok (PDict d) /\
    (dict_get "resource_url" d = Some (PStr start) \/
     (dict_get "resource_url" d = None /\
      start = "https://dashscope.aliyuncs.com/compatible-mode/v1")) /\
    let prefixed :=
      if str_startswith "http://" start || str_startswith "https://" start
      then start else "https://" +:+ start in
    let base_url :=
      if str_endswith "/v1" prefixed then prefixed else prefixed +:+ "/v1" in
    py_getitem r "base_url" = Ok (PStr base_url) /\
    str_endswith "/v1" base_url = true /\
    (str_startswith "http://" base_url = true \/
     str_startswith "https://" base_url = true).
Proof.
  intros H.
  assert (Hshape : forall start,
             let prefixed :=
               if str_startswith "http://" start || str_startswith "https://" start
               then start else "https://" +:+ start in
             (if str_endswith "/v1" prefixed then prefixed else prefixed +:+ "/v1")
             = with_version (with_scheme start)).
  { intros start. unfold with_version, with_scheme.
    destruct (str_startswith "http://" start || str_startswith "https://" start);
      cbn [negb]; destruct (str_endswith "/v1" _); reflexivity. }
  destruct (load_qwen_credentials env custom_path w) as [[loaded|e] w0] eqn:Hload.
  2:{ unfold get_openapi_credentials, bind in H. rewrite Hload in H. discriminate H. }
  assert (Hl : fst (load_qwen_credentials env custom_path w) = Ok loaded)
    by (rewrite Hload; reflexivity).
  destruct (is_token_valid env loaded w) as [[[|]|e] w1] eqn:Hvalid.
  - rewrite (get_openapi_credentials_valid env custom_path w w1 loaded Hl Hvalid) in H.
    cbn [fst] in H. apply openapi_descriptor_inv in H.
    destruct H as (d & url & api & -> & Hurl & _ & ->).
    exists d, url. cbn zeta. rewrite Hshape.
    repeat split; try (apply base_url_shape); exact Hurl.
  - rewrite (get_openapi_credentials_stale env custom_path w w1 loaded Hl Hvalid) in H.
    destruct (refresh_access_token env loaded w1) as [[refreshed|e] w2] eqn:Href;
      [|discriminate H].
    cbn [fst] in H. apply openapi_descriptor_inv in H.
    destruct H as (d' & url & api & -> & Hurl & _ & ->).
    apply refresh_ok_inv in Href.
    destruct Href as (d & tok & a & t & rt & ex & -> & _ & Hnew & _).
    injection Hnew as ->.
    rewrite !dict_get_set in Hurl. cbn [String.eqb Ascii.eqb Bool.eqb] in Hurl.
    exists d, url. cbn zeta. rewrite Hshape.
    repeat split; try (apply base_url_shape); exact Hurl.
  - pose proof (load_keeps_world env custom_path w) as Hw. rewrite Hload in Hw.
    cbn [snd] in Hw. subst w0.
    unfold get_openapi_credentials, bind in H. rewrite Hload, Hvalid in H.
    discriminate H.
Qed.

Lemma base_url_is_normalized_witness :
  let env := Examples.machine (Examples.answering 200 (Some (PDict Examples.good_body))) in
  let w := Examples.world_with (py_dumps (PDict Examples.stale_record)) in
  let r := PDict [("api_key", PStr "A");
                  ("base_url", PStr "https://example.com/compat/v1");
                  ("model", PStr "qwen3-coder-plus")] in
  exists (d : pydict) (start : string),
    fst (load_qwen_credentials env None w) = Ok (PDict d) /\
    (dict_get "resource_url" d = Some (PStr start) \/
     (dict_get "resource_url" d = None /\
      start = "https://dashscope.aliyuncs.com/compatible-mode/v1")) /\
    let prefixed :=
      if str_startswith "http://" start || str_startswith "https://" start
      then start else "https://" +:+ start in
    let base_url :=
      if str_endswith "/v1" prefixed then prefixed else prefixed +:+ "/v1" in
    py_getitem r "base_url" = Ok (PStr base_url) /\
    str_endswith "/v1" base_url = true /\
    (str_startswith "http://" base_url = true \/
     str_startswith "https://" base_url = true).
Proof.
  apply (base_url_is_normalized
           (Examples.machine (Examples.answering 200 (Some (PDict Examples.good_body))))
           None
           (Examples.world_with (py_dumps (PDict Examples.stale_record)))).
  vm_compute. reflexivity.
Defined.

(** C9. A record that is valid but has no [access_token] key makes
    [get_openapi_credentials] raise [KeyError "access_token"], from the
    unguarded lookup of line 189; and no operation checks that the access
    token is non-empty: an empty one is handed out as the [api_key]. *)
Theorem valid_record_without_access_token
  (env : Env) (custom_path : option string) (w : World) (d : pydict) :
  fst (load_qwen_credentials env custom_path w) = Ok (PDict d) ->
  fst (is_token_valid env (PDict d) w) = Ok true ->
  (dict_get "resource_url" d = None \/
   exists url, dict_get "resource_url" d = Some (PStr url)) ->
  (dict_get "access_token" d = None ->
   fst (get_openapi_credentials env custom_path w) = Raise (KeyError "access_token")) /\
  (dict_get "access_token" d = Some (PStr "") ->
   exists base_url,
     fst (get_openapi_credentials env custom_path w) =
       Ok (PDict [("api_key", PStr "");
                  ("base_url", PStr base_url);
                  ("model", PStr "qwen3-coder-plus")])).
Proof.
  intros Hload Hvalid Hurl.
  destruct (is_token_valid env (PDict d) w) as [o w1] eqn:E.
  cbn [fst] in Hvalid. subst o.
  rewrite (get_openapi_credentials_valid env custom_path w w1 (PDict d) Hload E).
  cbn [fst]. unfold openapi_descriptor, py_get, py_getitem.
  split; intros Ha; rewrite Ha; destruct Hurl as [-> | [url ->]]; eauto.
Qed.

Lemma valid_record_without_access_token_witness :
  let env := Examples.machine (Examples.answering 200 None) in
  let w := Examples.world_with
             (py_dumps (PDict [("expiry_date", PInt 1700000360000)])) in
  fst (get_openapi_credentials env None w) = Raise (KeyError "access_token").
Proof.
  apply (valid_record_without_access_token
           (Examples.machine (Examples.answering 200 None)) None
           (Examples.world_with
              (py_dumps (PDict [("expiry_date", PInt 1700000360000)])))
           [("expiry_date", PInt 1700000360000)]).
  - vm_compute. reflexivity.
  - vm_compute. reflexivity.
  - left. reflexivity.
  - reflexivity.
Defined.


(** ** Path resolution *)

Module PathFacts.

Import PosixPath.

Lemma str_app_cons (c : ascii) (s t : string) : String c s +:+ t = String c (s +:+ t).
Proof. reflexivity. Qed.

Lemma str_app_nil_l (t : string) : "" +:+ t = t.
Proof. reflexivity. Qed.

Lemma str_app_assoc (s t u : string) : (s +:+ t) +:+ u = s +:+ t +:+ u.
Proof.
  induction s as [|a s IH]; [reflexivity|].
  rewrite !str_app_cons, IH. reflexivity.
Qed.

Lemma prefix_nil (s : string) : String.prefix "" s = true.
Proof. destruct s; reflexivity. Qed.

Lemma split_no_slash (c : string) : no_slash c = true -> split_slash c = [c].
Proof.
  induction c as [|a c IH]; cbn [no_slash split_slash]; [reflexivity|].
  intros H. apply andb_true_iff in H as [Ha Hc].
  apply negb_true_iff in Ha. rewrite Ha, (IH Hc). reflexivity.
Qed.

Lemma split_component (c s : string) :
  no_slash c = true -> split_slash (c +:+ "/" +:+ s) = c :: split_slash s.
Proof.
  induction c as [|a c IH]; intros H.
  - reflexivity.
  - cbn [no_slash] in H. apply andb_true_iff in H as [Ha Hc].
    apply negb_true_iff in Ha. rewrite str_app_cons. cbn [split_slash].
    rewrite Ha, (IH Hc). reflexivity.
Qed.

Lemma split_join (c : string) (cs : list string) :
  Forall (fun x => no_slash x = true) (c :: cs) ->
  split_slash (join_slash (c :: cs)) = c :: cs.
Proof.
  revert c. induction cs as [|c2 cs IH]; intros c H.
  - apply split_no_slash. inversion H; assumption.
  - inversion H as [|? ? Hc Hcs]; subst.
    change (join_slash (c :: c2 :: cs)) with (c +:+ "/" +:+ join_slash (c2 :: cs)).
    rewrite (split_component _ _ Hc), (IH _ Hcs). reflexivity.
Qed.

Lemma proper_no_slash (c : string) : proper_component c = true -> no_slash c = true.
Proof.
  unfold proper_component. intros H.
  repeat (apply andb_true_iff in H as [H _]). exact H.
Qed.

Lemma norm_step_proper (i : nat) (stack : list string) (c : string) :
  proper_component c = true -> norm_step i stack c = c :: stack.
Proof.
  unfold proper_component, norm_step. intros H.
  repeat (let H' := fresh in apply andb_true_iff in H as [H H']).
  repeat match goal with
         | E : negb _ = true |- _ => apply negb_true_iff in E; rewrite E
         end.
  reflexivity.
Qed.

Lemma fold_norm_step_proper (i : nat) (comps stack : list string) :
  Forall (fun c => proper_component c = true) comps ->
  fold_left (norm_step i) comps stack = rev comps ++ stack.
Proof.
  revert stack. induction comps as [|c comps IH]; intros stack H; [reflexivity|].
  inversion H as [|? ? Hc Hcs]; subst. cbn [fold_left rev].
  rewrite (norm_step_proper _ _ _ Hc), (IH _ Hcs), <- app_assoc. reflexivity.
Qed.

(** A proper component starts with a character that is not a slash. *)
Lemma proper_head (c : string) :
  proper_component c = true ->
  exists a c', c = String a c' /\ is_slash a = false.
Proof.
  intros H. pose proof (proper_no_slash c H) as Hs.
  destruct c as [|a c'].
  - discriminate H.
  - cbn [no_slash] in Hs. apply andb_true_iff in Hs as [Ha _].
    apply negb_true_iff in Ha. eauto.
Qed.

(** [normpath] leaves a normalised absolute path alone. *)
Lemma normpath_normalised (comps : list string) :
  Forall (fun c => proper_component c = true) comps ->
  normpath ("/" +:+ join_slash comps) = "/" +:+ join_slash comps.
Proof.
  intros H. destruct comps as [|c cs]; [reflexivity|].
  assert (Hs : Forall (fun x => no_slash x = true) (c :: cs)).
  { eapply Forall_impl; [exact H|]. apply proper_no_slash. }
  inversion H as [|? ? Hc Hcs]; subst.
  destruct (proper_head c Hc) as (a & c' & Ec & Ha).
  unfold normpath.
  assert (Hinit : initial_slashes ("/" +:+ join_slash (c :: cs)) = 1%nat).
  { unfold initial_slashes, str_startswith.
    assert (E : exists t, "/" +:+ join_slash (c :: cs) = String "/" (String a t)).
    { subst c. destruct cs; cbn [join_slash String.concat]; rewrite ?str_app_cons; eauto. }
    destruct E as [t ->]. cbn [String.prefix].
    destruct (Ascii.ascii_dec "/" "/"); [|congruence].
    rewrite prefix_nil.
    destruct (Ascii.ascii_dec "/" a) as [<-|]; [discriminate Ha | reflexivity]. }
  rewrite Hinit.
  change ("/" +:+ join_slash (c :: cs)) with (String "/" (join_slash (c :: cs))).
  cbn [String.eqb split_slash]. change (is_slash "/") with true. cbn iota.
  rewrite (split_join c cs Hs).
  change (fold_left (norm_step 1) ("" :: c :: cs) [])
    with (fold_left (norm_step 1) (c :: cs) []).
  rewrite (fold_norm_step_proper 1 (c :: cs) [] H), app_nil_r, rev_involutive.
  reflexivity.
Qed.

End PathFacts.

Lemma join_home (home rest : string) :
  home <> "" ->
  str_endswith "/" home = false ->
  str_startswith "/" rest = false ->
  PosixPath.join2 home rest = home +:+ "/" +:+ rest.
Proof.
  intros Hne Hend Hrest. unfold PosixPath.join2. rewrite Hrest, Hend.
  destruct (String.eqb home "") eqn:E; [|reflexivity].
  apply String.eqb_eq in E. contradiction.
Qed.

(** The claim as stated fails on absolute custom paths that are not
    normalised, and on a "~/" path whose remainder starts with a slash. *)
Lemma custom_path_is_not_kept :
  let env := Examples.machine (Examples.answering 200 None) in
  str_startswith "/" "/tmp/../creds.json" = true /\
  get_qwen_credential_path env (Some "/tmp/../creds.json") = "/creds.json" /\
  get_qwen_credential_path env (Some "/tmp/../creds.json") <> "/tmp/../creds.json" /\
  get_qwen_credential_path env (Some "~//etc/creds.json") = "/etc/creds.json".
Proof.
  cbn zeta. split; [reflexivity|]. split; [reflexivity|].
  split; [|reflexivity]. vm_compute. discriminate.
Qed.

(** C7, as amended. Path resolution is a total function of the custom
    path, the home directory and the working directory.  Without a custom
    path it is [join(home, ".qwen", "oauth_creds.json")], that is
    [<home>/.qwen/oauth_creds.json]; a custom path ["~/" + rest] gives
    [join(home, rest)], that is [<home>/rest] when [rest] does not begin
    with a slash; an absolute custom path gives its [normpath], which is
    the path itself when it is already normalised (a slash followed by
    proper components separated by single slashes). *)
Theorem credential_path_resolution (env : Env) :
  get_qwen_credential_path env None =
    PosixPath.join (home env) [".qwen"; "oauth_creds.json"] /\
  (forall rest : string,
      get_qwen_credential_path env (Some ("~/" +:+ rest)) =
        PosixPath.join (home env) [rest]) /\
  (forall p : string,
      str_startswith "/" p = true ->
      get_qwen_credential_path env (Some p) = PosixPath.normpath p) /\
  (forall comps : list string,
      Forall (fun c => PosixPath.proper_component c = true) comps ->
      get_qwen_credential_path env (Some ("/" +:+ PosixPath.join_slash comps)) =
        "/" +:+ PosixPath.join_slash comps) /\
  (home env <> "" -> str_endswith "/" (home env) = false ->
   get_qwen_credential_path env None = home env +:+ "/.qwen/oauth_creds.json" /\
   forall rest : string,
     str_startswith "/" rest = false ->
     get_qwen_credential_path env (Some ("~/" +:+ rest)) = home env +:+ "/" +:+ rest).
Proof.
  assert (Habs : forall p, str_startswith "/" p = true ->
                   get_qwen_credential_path env (Some p) = PosixPath.normpath p).
  { intros p Hp. destruct p as [|a p]; [discriminate Hp|].
    unfold str_startswith in Hp. cbn [String.prefix] in Hp.
    destruct (Ascii.ascii_dec "/" a) as [<-|]; [|discriminate Hp].
    unfold get_qwen_credential_path, PosixPath.abspath, PosixPath.isabs,
      str_startswith.
    cbn [String.eqb String.prefix negb]. 
    change (Ascii.eqb "/" "~") with false. cbn iota.
    destruct (Ascii.ascii_dec "~" "/"); [discriminate|].
    destruct (Ascii.ascii_dec "/" "/"); [|congruence].
    rewrite PathFacts.prefix_nil. reflexivity. }
  split; [reflexivity|]. split; [|split; [exact Habs|split]].
  - intros rest. unfold get_qwen_credential_path, str_startswith.
    change ("~/" +:+ rest) with (String "~" (String "/" rest)).
    cbn [String.eqb String.prefix negb str_drop].
    destruct (Ascii.ascii_dec "~" "~"); [|congruence].
    destruct (Ascii.ascii_dec "/" "/"); [|congruence].
    rewrite PathFacts.prefix_nil. reflexivity.
  - intros comps H. rewrite Habs.
    + apply PathFacts.normpath_normalised. exact H.
    + unfold str_startswith.
      change ("/" +:+ PosixPath.join_slash comps)
        with (String "/" (PosixPath.join_slash comps)).
      cbn [String.prefix]. destruct (Ascii.ascii_dec "/" "/"); [|congruence].
      apply PathFacts.prefix_nil.
  - intros Hne Hend. split.
    + unfold get_qwen_credential_path, PosixPath.join. cbn [fold_left].
      rewrite (join_home (home env) QWEN_DIR Hne Hend eq_refl).
      unfold PosixPath.join2.
      change (str_startswith "/" QWEN_CREDENTIAL_FILENAME) with false. cbn iota.
      replace (String.eqb (home env +:+ "/" +:+ QWEN_DIR) "") with false.
      2:{ symmetry. apply String.eqb_neq. intros E.
          destruct (home env); [contradiction | discriminate E]. }
      replace (str_endswith "/" (home env +:+ "/" +:+ QWEN_DIR)) with false.
      2:{ symmetry. clear. induction (home env) as [|a h IH].
          - reflexivity.
          - change (String a h +:+ "/" +:+ QWEN_DIR)
              with (String a (h +:+ "/" +:+ QWEN_DIR)).
            cbn [str_endswith]. rewrite IH, orb_false_r.
            cbn [String.eqb]. destruct (Ascii.eqb a "/"); [|reflexivity].
            destruct h; reflexivity. }
      cbn [orb]. rewrite !PathFacts.str_app_assoc. reflexivity.
    + intros rest Hrest.
      assert (E : get_qwen_credential_path env (Some ("~/" +:+ rest)) =
                  PosixPath.join (home env) [rest]).
      { unfold get_qwen_credential_path, str_startswith.
        change ("~/" +:+ rest) with (String "~" (String "/" rest)).
        cbn [String.eqb String.prefix negb str_drop].
        destruct (Ascii.ascii_dec "~" "~"); [|congruence].
        destruct (Ascii.ascii_dec "/" "/"); [|congruence].
        rewrite PathFacts.prefix_nil. reflexivity. }
      rewrite E. unfold PosixPath.join. cbn [fold_left].
      apply join_home; assumption.
Qed.

Lemma credential_path_resolution_witness :
  let env := Examples.machine (Examples.answering 200 None) in
  get_qwen_credential_path env None = "/home/user/.qwen/oauth_creds.json" /\
  get_qwen_credential_path env (Some "~/foo.json") = "/home/user/foo.json" /\
  get_qwen_credential_path env (Some "/abs/path.json") = "/abs/path.json".
Proof.
  destruct (credential_path_resolution (Examples.machine (Examples.answering 200 None)))
    as (_ & _ & _ & Hnorm & Hhome).
  destruct Hhome as [Hdefault Htilde]; [discriminate | reflexivity |].
  split; [exact Hdefault|]. split.
  - apply (Htilde "foo.json"). reflexivity.
  - apply (Hnorm ["abs"; "path.json"]). repeat constructor.
Defined.


(** ** The JSON codec: decoding what the encoder wrote *)

Module JsonFacts.

Import PathFacts.

(** *** Strings *)

(** Reading back the escape of one character. *)
Lemma scan_escape_char (c : ascii) (t : string) :
  scan_string (escape_char c +:+ t) =
    match scan_string t with
    | Some (str, rest) => Some (String c str, rest)
    | None => None
    end.
Proof.
  destruct c as [[|] [|] [|] [|] [|] [|] [|] [|]]; reflexivity.
Qed.

Lemma scan_escape_body (s rest : string) :
  scan_string (escape_body s +:+ String dquote rest) = Some (s, rest).
Proof.
  induction s as [|c s IH].
  - reflexivity.
  - cbn [escape_body]. rewrite str_app_assoc, scan_escape_char, IH. reflexivity.
Qed.

(** *** Integers *)

Lemma scan_digits_stop (rest : string) :
  starts_with_digit rest = false -> scan_digits rest = (Decimal.Nil, rest).
Proof.
  destruct rest as [|c r]; [reflexivity|].
  cbn [starts_with_digit scan_digits]. unfold is_digit.
  destruct (digit_con c); [discriminate | reflexivity].
Qed.

Lemma scan_digits_uint (u : Decimal.uint) (rest : string) :
  starts_with_digit rest = false ->
  scan_digits (NilEmpty.string_of_uint u +:+ rest) = (u, rest).
Proof.
  intros H. induction u; cbn [NilEmpty.string_of_uint];
    rewrite ?str_app_cons; cbn [scan_digits digit_con];
    rewrite ?IHu; try reflexivity.
  apply scan_digits_stop, H.
Qed.

(** The decimal digits of a positive number do not start with a zero. *)
Lemma to_uint_head (p : positive) :
  exists c s, NilEmpty.string_of_uint (Pos.to_uint p) = String c s /\
              is_digit c = true /\ Ascii.eqb c "0" = false.
Proof.
  pose proof (Unsigned.to_uint_nonzero p) as Hnz.
  pose proof (Unsigned.to_of (Pos.to_uint p)) as Hnorm.
  rewrite Unsigned.of_to in Hnorm. cbn [N.to_uint] in Hnorm.
  destruct (Pos.to_uint p) as [|d|d|d|d|d|d|d|d|d|d] eqn:E;
    cbn [NilEmpty.string_of_uint]; try (eexists _, _; split; [reflexivity|]; split; reflexivity).
  - exfalso. revert E. apply Unsigned.to_uint_nonnil.
  - exfalso. unfold Decimal.unorm in Hnorm. cbn [Decimal.nzhead] in Hnorm.
    pose proof (nb_digits_nzhead d) as Hlen.
    destruct (Decimal.nzhead d) eqn:En; try discriminate Hnorm.
    + injection Hnorm as Hd. subst d. apply Hnz. reflexivity.
    + rewrite <- Hnorm in Hlen. cbn in Hlen. lia.
Qed.

Lemma digit_chars (c : ascii) :
  is_digit c = true \/ c = "-"%char ->
  Ascii.eqb c dquote = false /\ Ascii.eqb c "{" = false /\ Ascii.eqb c "[" = false /\
  Ascii.eqb c "]" = false /\ is_ws c = false /\
  Ascii.eqb c "n" = false /\ Ascii.eqb c "t" = false /\ Ascii.eqb c "f" = false.
Proof.
  intros [H | ->]; [|repeat split].
  destruct c as [[|] [|] [|] [|] [|] [|] [|] [|]]; try discriminate H; repeat split.
Qed.

Lemma digit_not_minus (c : ascii) : is_digit c = true -> Ascii.eqb c "-" = false.
Proof.
  intros H.
  destruct c as [[|] [|] [|] [|] [|] [|] [|] [|]]; try discriminate H; reflexivity.
Qed.

(** The head of the decimal text of an integer: a digit or the sign. *)
Lemma int_repr_head (n : Z) :
  exists c s, int_repr n = String c s /\ (is_digit c = true \/ c = "-"%char).
Proof.
  destruct n as [|p|p].
  - exists "0"%char, "". split; [reflexivity | left; reflexivity].
  - destruct (to_uint_head p) as (c & s & E & Hc & _).
    exists c, s. split; [|left; exact Hc].
    unfold int_repr. cbn [Z.to_int NilZero.string_of_int]. unfold NilZero.string_of_uint.
    destruct (Pos.to_uint p); [discriminate E | exact E ..].
  - eexists "-"%char, _. split; [reflexivity | right; reflexivity].
Qed.

Lemma nilzero_positive (p : positive) :
  NilZero.string_of_uint (Pos.to_uint p) = NilEmpty.string_of_uint (Pos.to_uint p).
Proof.
  pose proof (Unsigned.to_uint_nonnil p) as H.
  unfold NilZero.string_of_uint. destruct (Pos.to_uint p); [contradiction | reflexivity ..].
Qed.

Lemma scan_int_part_positive (p : positive) (rest : string) :
  starts_with_digit rest = false ->
  scan_int_part (NilEmpty.string_of_uint (Pos.to_uint p) +:+ rest)
  = Some (Pos.to_uint p, rest).
Proof.
  intros H. destruct (to_uint_head p) as (c & s & E & Hc & Hz).
  pose proof (scan_digits_uint (Pos.to_uint p) rest H) as Hscan.
  rewrite E in *. rewrite str_app_cons in *.
  unfold scan_int_part. rewrite Hz, Hc, Hscan. reflexivity.
Qed.

Lemma of_uint_to_uint (p : positive) : Z.of_uint (Pos.to_uint p) = Z.pos p.
Proof. unfold Z.of_uint. rewrite Unsigned.of_to. reflexivity. Qed.

(** Reading back the decimal text of an integer, when what follows
    cannot continue a number. *)
Lemma scan_number_repr (n : Z) (rest : string) :
  starts_with_digit rest = false ->
  float_tail rest = false ->
  scan_number (int_repr n +:+ rest) = Some (PInt n, rest).
Proof.
  intros Hd Hf. destruct n as [|p|p]; unfold int_repr;
    cbn [Z.to_int NilZero.string_of_int].
  - change (NilZero.string_of_uint Decimal.zero +:+ rest) with (String "0" rest).
    change (scan_number (String "0" rest))
      with (if float_tail rest then None
            else Some (PInt (Z.of_uint (Decimal.D0 Decimal.Nil)), rest)).
    rewrite Hf. reflexivity.
  - rewrite nilzero_positive.
    destruct (to_uint_head p) as (c & s & E & Hc & _).
    pose proof (scan_int_part_positive p rest Hd) as Hscan.
    unfold scan_number. rewrite E in *. rewrite str_app_cons in *.
    rewrite (digit_not_minus c Hc), Hscan, Hf, of_uint_to_uint. reflexivity.
  - rewrite nilzero_positive, str_app_cons.
    change (scan_number (String "-" (NilEmpty.string_of_uint (Pos.to_uint p) +:+ rest)))
      with (match scan_int_part (NilEmpty.string_of_uint (Pos.to_uint p) +:+ rest) with
            | Some (u, rest') =>
                if float_tail rest' then None
                else Some (PInt (Z.opp (Z.of_uint u)), rest')
            | None => None
            end).
    rewrite (scan_int_part_positive p rest Hd), Hf, of_uint_to_uint. reflexivity.
Qed.

Lemma parse_value_number (fuel : nat) (c : ascii) (r : string) :
  is_digit c = true \/ c = "-"%char ->
  parse_value (S fuel) (String c r) = scan_number (String c r).
Proof.
  intros [H | ->]; [|reflexivity].
  destruct c as [[|] [|] [|] [|] [|] [|] [|] [|]]; try discriminate H; reflexivity.
Qed.

(** *** White space *)

Lemma skip_ws_indent (n : nat) (t : string) :
  skip_ws (str_repeat n "  " +:+ t) = skip_ws t.
Proof.
  induction n as [|n IH]; [reflexivity|].
  cbn [str_repeat]. rewrite str_app_assoc.
  change ("  " +:+ str_repeat n "  " +:+ t)
    with (String " " (String " " (str_repeat n "  " +:+ t))).
  cbn [skip_ws]. change (is_ws " ") with true. cbn iota. exact IH.
Qed.

Lemma skip_ws_newline_indent (n : nat) (t : string) :
  skip_ws (newline_indent n +:+ t) = skip_ws t.
Proof.
  unfold newline_indent. rewrite str_app_cons. cbn [skip_ws].
  change (is_ws newline) with true. cbn iota. apply skip_ws_indent.
Qed.

Lemma skip_ws_head (c : ascii) (s : string) :
  is_ws c = false -> skip_ws (String c s) = String c s.
Proof. intros H. cbn [skip_ws]. rewrite H. reflexivity. Qed.

(** *** The head of an encoded value *)

Lemma encode_head (level : nat) (v : pyval) :
  exists c s, encode level v = String c s /\
              is_ws c = false /\ Ascii.eqb c "]" = false.
Proof.
  destruct v as [|[|]|n|s|[|x xs]|[|[k x] kxs]];
    try (eexists _, _; split; [reflexivity | split; reflexivity]).
  destruct (int_repr_head n) as (c & s & E & Hc).
  exists c, s. split; [exact E|]. apply digit_chars in Hc. tauto.
Qed.

Lemma skip_ws_encode (level : nat) (v : pyval) (t : string) :
  skip_ws (encode level v +:+ t) = encode level v +:+ t.
Proof.
  destruct (encode_head level v) as (c & s & -> & Hws & _).
  rewrite str_app_cons. apply skip_ws_head, Hws.
Qed.

(** *** [dict(pairs)] on pairs with distinct keys *)

Lemma existsb_middle {A} (f : A -> bool) (l1 l2 : list A) (x : A) :
  existsb f (l1 ++ x :: l2) = false -> f x = false.
Proof.
  induction l1 as [|y l1 IH]; cbn [existsb app]; intros H;
    apply orb_false_iff in H as [H1 H2]; auto.
Qed.

Lemma distinct_fresh (acc d : pydict) (k : string) (v : pyval) :
  distinct (map fst (acc ++ (k, v) :: d)) = true -> dict_get k acc = None.
Proof.
  induction acc as [|[k0 v0] acc IH]; [reflexivity|].
  cbn [app map fst distinct dict_get]. intros H.
  apply andb_true_iff in H as [Hk0 Hrest]. apply negb_true_iff in Hk0.
  rewrite map_app in Hk0. apply existsb_middle in Hk0. cbn [fst] in Hk0.
  rewrite String.eqb_sym, Hk0. apply IH, Hrest.
Qed.

Lemma dict_set_fresh (k : string) (v : pyval) (acc : pydict) :
  dict_get k acc = None -> dict_set k v acc = acc ++ [(k, v)].
Proof.
  induction acc as [|[k0 v0] acc IH]; [reflexivity|].
  cbn [dict_get dict_set app]. destruct (String.eqb k k0); [discriminate|].
  intros H. rewrite (IH H). reflexivity.
Qed.

Lemma dict_update_distinct (d acc : pydict) :
  distinct (map fst (acc ++ d)) = true -> dict_update acc d = acc ++ d.
Proof.
  unfold dict_update. revert acc.
  induction d as [|[k v] d IH]; intros acc H; cbn [fold_left fst snd].
  - rewrite app_nil_r. reflexivity.
  - rewrite (dict_set_fresh k v acc (distinct_fresh acc d k v H)).
    rewrite IH; rewrite <- app_assoc; [reflexivity | exact H].
Qed.

Lemma dict_of_pairs_distinct (d : pydict) :
  distinct (map fst d) = true -> dict_of_pairs d = d.
Proof. intros H. apply (dict_update_distinct d []), H. Qed.

Lemma existsb_dict_set (k0 k : string) (v : pyval) (acc : pydict) :
  existsb (String.eqb k0) (map fst (dict_set k v acc)) =
  existsb (String.eqb k0) (map fst acc) || String.eqb k0 k.
Proof.
  induction acc as [|[k1 v1] acc IH]; cbn [dict_set map fst existsb].
  - apply orb_comm.
  - destruct (String.eqb k k1) eqn:E; cbn [map fst existsb].
    + apply String.eqb_eq in E. subst k1. clear IH.
      destruct (String.eqb k0 k), (existsb _ _); reflexivity.
    + rewrite IH. apply orb_assoc.
Qed.

Lemma dict_set_well_formed (k : string) (v : pyval) (acc : pydict) :
  well_formed v = true ->
  well_formed (PDict acc) = true ->
  well_formed (PDict (dict_set k v acc)) = true.
Proof.
  intros Hv. cbn [well_formed].
  induction acc as [|[k0 v0] acc IH]; cbn [dict_set map fst snd distinct forallb].
  - intros _. cbn. rewrite Hv. reflexivity.
  - intros H. apply andb_true_iff in H as [Hd Hf].
    apply andb_true_iff in Hd as [Hk0 Hd]. apply andb_true_iff in Hf as [Hv0 Hf].
    destruct (String.eqb k k0) eqn:E; cbn [map fst snd distinct forallb].
    + rewrite Hk0, Hd, Hv, Hf. reflexivity.
    + assert (IH' := IH (proj2 (andb_true_iff _ _) (conj Hd Hf))).
      apply andb_true_iff in IH' as [Hd' Hf'].
      rewrite existsb_dict_set. apply negb_true_iff in Hk0. rewrite Hk0.
      rewrite (String.eqb_sym k0 k), E. cbn [orb negb andb].
      rewrite Hd', Hv0, Hf'. reflexivity.
Qed.

Lemma dict_of_pairs_well_formed (pairs : pydict) :
  forallb (fun kv => well_formed (snd kv)) pairs = true ->
  well_formed (PDict (dict_of_pairs pairs)) = true.
Proof.
  unfold dict_of_pairs, dict_update.
  assert (G : forall acc, well_formed (PDict acc) = true ->
                forallb (fun kv => well_formed (snd kv)) pairs = true ->
                well_formed (PDict (fold_left
                   (fun acc kv => dict_set (fst kv) (snd kv) acc) pairs acc)) = true).
  { induction pairs as [|[k v] pairs IH]; intros acc Hacc H; [exact Hacc|].
    cbn [forallb snd] in H. apply andb_true_iff in H as [Hv H].
    cbn [fold_left fst snd]. apply IH; [|exact H].
    apply dict_set_well_formed; assumption. }
  apply G. reflexivity.
Qed.

(** *** One step of each parser *)

Lemma parse_elements_step (f : nat) (s : string) :
  parse_elements (S f) s =
    match parse_value f s with
    | None => None
    | Some (v, r1) =>
        match skip_ws r1 with
        | String c r2 =>
            if Ascii.eqb c "]" then Some ([v], r2)
            else if Ascii.eqb c "," then
              match parse_elements f (skip_ws r2) with
              | Some (values, rest) => Some (v :: values, rest)
              | None => None
              end
            else None
        | EmptyString => None
        end
    end.
Proof. reflexivity. Qed.

Lemma parse_members_step (f : nat) (s : string) :
  parse_members (S f) s =
    match scan_string s with
    | None => None
    | Some (key, r1) =>
        match skip_ws r1 with
        | String c r2 =>
            if Ascii.eqb c ":" then
              match parse_value f (skip_ws r2) with
              | None => None
              | Some (v, r3) =>
                  match skip_ws r3 with
                  | String c' r4 =>
                      if Ascii.eqb c' "}" then Some ([(key, v)], r4)
                      else if Ascii.eqb c' "," then
                        match skip_ws r4 with
                        | String c'' r5 =>
                            if Ascii.eqb c'' dquote then
                              match parse_members f r5 with
                              | Some (pairs, rest) => Some ((key, v) :: pairs, rest)
                              | None => None
                              end
                            else None
                        | EmptyString => None
                        end
                      else None
                  | EmptyString => None
                  end
              end
            else None
        | EmptyString => None
        end
    end.
Proof. reflexivity. Qed.

Lemma parse_value_list (f : nat) (r : string) :
  parse_value (S f) (String "[" r) =
    match skip_ws r with
    | String c1 r1 =>
        if Ascii.eqb c1 "]" then Some (PList [], r1)
        else
          match parse_elements f (String c1 r1) with
          | Some (values, rest) => Some (PList values, rest)
          | None => None
          end
    | EmptyString => None
    end.
Proof. reflexivity. Qed.

Lemma parse_value_dict (f : nat) (r : string) :
  parse_value (S f) (String "{" r) =
    match skip_ws r with
    | String c1 r1 =>
        if Ascii.eqb c1 "}" then Some (PDict [], r1)
        else if Ascii.eqb c1 dquote then
          match parse_members f r1 with
          | Some (pairs, rest) => Some (PDict (dict_of_pairs pairs), rest)
          | None => None
          end
        else None
    | EmptyString => None
    end.
Proof. reflexivity. Qed.

Lemma parse_value_str (f : nat) (r : string) :
  parse_value (S f) (String dquote r) =
    match scan_string r with
    | Some (str, rest) => Some (PStr str, rest)
    | None => None
    end.
Proof. reflexivity. Qed.

(** *** Decoding an encoded value *)

Lemma list_tail_reads_back (level : nat) (xs : list pyval) :
  Forall reads_back xs ->
  forall (x : pyval) (rest : string) (fuel : nat),
    reads_back x ->
    forallb well_formed (x :: xs) = true ->
    (list_sum (map (fun y => S (value_size y)) (x :: xs)) <= fuel)%nat ->
    parse_elements fuel
      (encode (S level) x +:+ list_tail (encode (S level)) level xs +:+ rest)
    = Some (x :: xs, rest).
Proof.
  induction 1 as [|y ys Hy Hys IH]; intros x rest fuel Hx Hwf Hfuel;
    cbn [forallb] in Hwf; apply andb_true_iff in Hwf as [Hwx Hwf];
    cbn [map list_sum fold_right] in Hfuel;
    (destruct fuel as [|f]; [lia|]); rewrite parse_elements_step.
  - cbn [list_tail]. rewrite (Hx (S level)); [|exact Hwx | lia | reflexivity ..].
    rewrite str_app_assoc, skip_ws_newline_indent. reflexivity.
  - cbn [list_tail]. rewrite !str_app_assoc.
    rewrite (Hx (S level)); [|exact Hwx | lia | reflexivity ..].
    change ("," +:+ newline_indent (S level) +:+ encode (S level) y +:+
            list_tail (encode (S level)) level ys +:+ rest)
      with (String "," (newline_indent (S level) +:+ encode (S level) y +:+
            list_tail (encode (S level)) level ys +:+ rest)).
    rewrite skip_ws_head by reflexivity.
    change (Ascii.eqb "," "]") with false. change (Ascii.eqb "," ",") with true.
    cbn iota. rewrite skip_ws_newline_indent, skip_ws_encode.
    rewrite (IH y rest f Hy Hwf); [reflexivity|].
    cbn [map list_sum fold_right]. lia.
Qed.

Lemma colon_space (t : string) : ": " +:+ t = String ":" (String " " t).
Proof. reflexivity. Qed.

Lemma comma_app (t : string) : "," +:+ t = String "," t.
Proof. reflexivity. Qed.

Lemma skip_ws_space (t : string) : skip_ws (String " " t) = skip_ws t.
Proof. reflexivity. Qed.

Lemma encode_str_app (k t : string) :
  encode_str k +:+ t = String dquote (escape_body k +:+ String dquote t).
Proof.
  unfold encode_str. rewrite str_app_cons, str_app_assoc. reflexivity.
Qed.

Lemma dict_tail_reads_back (level : nat) (kxs : pydict) :
  Forall (fun kv => reads_back (snd kv)) kxs ->
  forall (k : string) (x : pyval) (rest : string) (fuel : nat),
    reads_back x ->
    forallb (fun kv => well_formed (snd kv)) ((k, x) :: kxs) = true ->
    (list_sum (map (fun kv => S (value_size (snd kv))) ((k, x) :: kxs)) <= fuel)%nat ->
    parse_members fuel
      (escape_body k +:+ String dquote
         (": " +:+ encode (S level) x +:+
          dict_tail (encode (S level)) level kxs +:+ rest))
    = Some ((k, x) :: kxs, rest).
Proof.
  induction 1 as [|[k' y] ys Hy Hys IH]; intros k x rest fuel Hx Hwf Hfuel;
    cbn [forallb snd] in Hwf; apply andb_true_iff in Hwf as [Hwx Hwf];
    cbn [map list_sum fold_right snd] in Hfuel;
    (destruct fuel as [|f]; [lia|]);
    rewrite parse_members_step, scan_escape_body, colon_space;
    rewrite skip_ws_head by reflexivity;
    change (Ascii.eqb ":" ":") with true; cbn iota;
    rewrite skip_ws_space, skip_ws_encode; cbn [dict_tail].
  - rewrite (Hx (S level)); [|exact Hwx | lia | reflexivity ..].
    rewrite str_app_assoc, skip_ws_newline_indent. reflexivity.
  - rewrite !str_app_assoc.
    rewrite (Hx (S level)); [|exact Hwx | lia | reflexivity ..].
    rewrite comma_app, skip_ws_head by reflexivity.
    change (Ascii.eqb "," "}") with false. change (Ascii.eqb "," ",") with true.
    cbn iota. rewrite skip_ws_newline_indent, encode_str_app.
    rewrite skip_ws_head by reflexivity.
    change (Ascii.eqb dquote dquote) with true. cbn iota.
    cbn [snd] in Hy.
    rewrite (IH k' y rest f Hy Hwf); [reflexivity|].
    cbn [map list_sum fold_right snd]. lia.
Qed.

Lemma str_app_nil_r (s : string) : s +:+ "" = s.
Proof.
  induction s as [|c s IH]; [reflexivity|]. rewrite str_app_cons, IH. reflexivity.
Qed.

Theorem encode_reads_back (v : pyval) : reads_back v.
Proof.
  induction v as [|b|n|s|l IH|d IH] using pyval_ind;
    intros level rest fuel Hwf Hfuel Hdigit Hfloat;
    (destruct fuel as [|f]; [cbn [value_size] in Hfuel; lia|]).
  - destruct rest; reflexivity.
  - destruct b, rest; reflexivity.
  - cbn [encode]. destruct (int_repr_head n) as (c & s & E & Hc).
    pose proof (scan_number_repr n rest Hdigit Hfloat) as Hscan.
    rewrite E in *. rewrite str_app_cons in *.
    rewrite (parse_value_number f c _ Hc). exact Hscan.
  - cbn [encode]. rewrite encode_str_app, parse_value_str, scan_escape_body.
    reflexivity.
  - destruct l as [|x xs]; [reflexivity|].
    cbn [encode]. rewrite !str_app_assoc.
    change ("[" +:+ ?s) with (String "[" s).
    rewrite parse_value_list, skip_ws_newline_indent, skip_ws_encode.
    inversion IH as [|? ? Hx Hxs]; subst.
    pose proof (list_tail_reads_back level xs Hxs x rest f Hx) as Htail.
    cbn [well_formed] in Hwf. cbn [value_size] in Hfuel.
    specialize (Htail Hwf ltac:(lia)).
    destruct (encode_head (S level) x) as (c & s & E & _ & Hc).
    rewrite E in *. rewrite str_app_cons in *. rewrite Hc, Htail. reflexivity.
  - destruct d as [|[k x] kxs]; [reflexivity|].
    cbn [encode]. rewrite !str_app_assoc.
    change ("{" +:+ ?s) with (String "{" s).
    rewrite parse_value_dict, skip_ws_newline_indent, encode_str_app.
    rewrite skip_ws_head by reflexivity.
    change (Ascii.eqb dquote "}") with false.
    change (Ascii.eqb dquote dquote) with true. cbn iota.
    inversion IH as [|? ? Hx Hxs]; subst. cbn [snd] in Hx.
    cbn [well_formed] in Hwf. apply andb_true_iff in Hwf as [Hkeys Hwf].
    cbn [value_size] in Hfuel.
    rewrite (dict_tail_reads_back level kxs Hxs k x rest f Hx Hwf ltac:(lia)).
    rewrite (dict_of_pairs_distinct _ Hkeys). reflexivity.
Qed.

(** *** Fuel: the text is at least as long as the value is big *)

Lemma str_length_app (s t : string) :
  String.length (s +:+ t) = (String.length s + String.length t)%nat.
Proof.
  induction s as [|c s IH]; [reflexivity|].
  rewrite str_app_cons. cbn [String.length]. rewrite IH. reflexivity.
Qed.

Lemma value_size_le_length (v : pyval) :
  forall level, (value_size v <= String.length (encode level v))%nat.
Proof.
  induction v as [|b|n|s|l IH|d IH] using pyval_ind; intros level.
  - cbn. lia.
  - destruct b; cbn; lia.
  - cbn [encode value_size]. destruct (int_repr_head n) as (c & s & -> & _).
    cbn [String.length]. lia.
  - cbn [encode value_size]. unfold encode_str. cbn [String.length]. lia.
  - destruct l as [|x xs]; [cbn; lia|].
    inversion IH as [|? ? Hx Hxs]; subst.
    cbn [encode value_size map list_sum fold_right].
    rewrite !str_length_app. unfold newline_indent at 1. cbn [String.length].
    specialize (Hx (S level)).
    assert (Htail : (list_sum (map (fun y => S (value_size y)) xs)
                     <= String.length (list_tail (encode (S level)) level xs))%nat).
    { clear Hx IH. induction Hxs as [|y ys Hy Hys IHys];
        cbn [map list_sum fold_right list_tail].
      - lia.
      - rewrite !str_length_app. specialize (Hy (S level)).
        cbn [String.length]. unfold list_sum in *. lia. }
    unfold list_sum in Htail. lia.
  - destruct d as [|[k x] kxs]; [cbn; lia|].
    inversion IH as [|? ? Hx Hxs]; subst. cbn [snd] in Hx.
    cbn [encode value_size map list_sum fold_right snd].
    rewrite !str_length_app. unfold newline_indent at 1. cbn [String.length].
    specialize (Hx (S level)).
    assert (Htail : (list_sum (map (fun kv => S (value_size (snd kv))) kxs)
                     <= String.length (dict_tail (encode (S level)) level kxs))%nat).
    { clear Hx IH. induction Hxs as [|[k' y] ys Hy Hys IHys];
        cbn [map list_sum fold_right dict_tail snd].
      - lia.
      - rewrite !str_length_app. cbn [snd] in Hy. specialize (Hy (S level)).
        cbn [String.length]. unfold list_sum in *. lia. }
    unfold list_sum in Htail. lia.
Qed.

(** [json.load] reads back what [json.dump] wrote. *)
Theorem loads_dumps (v : pyval) :
  well_formed v = true -> py_loads (py_dumps v) = Some v.
Proof.
  intros Hwf. unfold py_loads, py_dumps.
  pose proof (skip_ws_encode 0 v "") as Hskip. rewrite str_app_nil_r in Hskip.
  rewrite Hskip.
  pose proof (encode_reads_back v 0%nat "" (S (String.length (encode 0 v))) Hwf) as H.
  rewrite str_app_nil_r in H. rewrite H; [reflexivity | | reflexivity ..].
  pose proof (value_size_le_length v 0). lia.
Qed.

(** *** What the decoder builds is well formed *)

Lemma scan_number_int (s : string) (v : pyval) (r : string) :
  scan_number s = Some (v, r) -> exists n, v = PInt n.
Proof.
  unfold scan_number.
  destruct (match s with
            | String c r0 => if Ascii.eqb c "-" then (true, r0) else (false, s)
            | EmptyString => (false, s)
            end) as [negative s1].
  destruct (scan_int_part s1) as [[u rest]|]; [|discriminate].
  destruct (float_tail rest); [discriminate|].
  intros [= <- _]. eauto.
Qed.

Ltac split_parse H :=
  repeat match type of H with
    | context [match ?x with _ => _ end] => destruct x eqn:?; try discriminate H
    end.

Lemma parse_well_formed (fuel : nat) :
  (forall s v r, parse_value fuel s = Some (v, r) -> well_formed v = true) /\
  (forall s ps r, parse_members fuel s = Some (ps, r) ->
                  forallb (fun kv => well_formed (snd kv)) ps = true) /\
  (forall s vs r, parse_elements fuel s = Some (vs, r) ->
                  forallb well_formed vs = true).
Proof.
  induction fuel as [|f (IHv & IHm & IHe)].
  - repeat split; intros; discriminate.
  - split; [|split].
    + intros s v r H. destruct s as [|c s]; [discriminate H|].
      cbn [parse_value] in H. split_parse H.
      all: try (injection H as <- _; reflexivity).
      * injection H as <- _. apply dict_of_pairs_well_formed. eapply IHm. eassumption.
      * injection H as <- _. cbn [well_formed]. eapply IHe. eassumption.
      * apply scan_number_int in H as [n ->]. reflexivity.
    + intros s ps r H. rewrite parse_members_step in H. split_parse H.
      * injection H as <- _. cbn [forallb snd]. erewrite IHv by eassumption. reflexivity.
      * injection H as <- _. cbn [forallb snd]. erewrite IHv by eassumption.
        eapply IHm. eassumption.
    + intros s vs r H. rewrite parse_elements_step in H. split_parse H.
      * injection H as <- _. cbn [forallb]. erewrite IHv by eassumption. reflexivity.
      * injection H as <- _. cbn [forallb]. erewrite IHv by eassumption.
        eapply IHe. eassumption.
Qed.

Theorem loads_well_formed (text : string) (v : pyval) :
  py_loads text = Some v -> well_formed v = true.
Proof.
  unfold py_loads. intros H.
  destruct (parse_value _ _) as [[v' rest]|] eqn:E; [|discriminate H].
  destruct (skip_ws rest); [|discriminate H]. injection H as ->.
  eapply (proj1 (parse_well_formed _)). exact E.
Qed.


End JsonFacts.


(** ** The fuel of the decoder never runs out *)

Module FuelFacts.

Import JsonFacts.

Local Open Scope nat_scope.

Lemma skip_ws_length (s : string) : String.length (skip_ws s) <= String.length s.
Proof.
  induction s as [|c s IH]; cbn [skip_ws String.length]; [lia|].
  destruct (is_ws c); cbn [String.length]; lia.
Qed.

Lemma scan_string_length (n : nat) :
  forall s str rest,
    String.length s <= n ->
    scan_string s = Some (str, rest) ->
    String.length rest < String.length s.
Proof.
  induction n as [|n IH]; intros s str rest Hn H.
  - destruct s; [discriminate H | cbn in Hn; lia].
  - destruct s as [|c r]; [discriminate H|].
    cbn [scan_string] in H. cbn [String.length] in *.
    split_parse H.
    + injection H as _ <-. lia.
    + injection H as _ <-. cbn [String.length].
      match goal with
      | E : scan_string ?t = Some (_, ?u) |- String.length ?u < _ =>
          apply IH in E; [|cbn [String.length] in *; lia]
      end. cbn [String.length] in *. lia.
    + injection H as _ <-. cbn [String.length].
      match goal with
      | E : scan_string ?t = Some (_, ?u) |- String.length ?u < _ =>
          apply IH in E; [|cbn [String.length] in *; lia]
      end. cbn [String.length] in *. lia.
    + injection H as _ <-.
      match goal with
      | E : scan_string ?t = Some (_, ?u) |- String.length ?u < _ =>
          apply IH in E; [|cbn [String.length] in *; lia]
      end. lia.
Qed.

Lemma scan_digits_length (s : string) :
  String.length (snd (scan_digits s)) <= String.length s.
Proof.
  induction s as [|c s IH]; cbn [scan_digits]; [cbn; lia|].
  destruct (digit_con c) as [d|]; [|cbn; lia].
  destruct (scan_digits s) as [u rest]. cbn [snd String.length] in *. lia.
Qed.

Lemma scan_int_part_length (s : string) (u : Decimal.uint) (rest : string) :
  scan_int_part s = Some (u, rest) -> String.length rest < String.length s.
Proof.
  destruct s as [|c r]; [discriminate|]. unfold scan_int_part.
  destruct (Ascii.eqb c "0").
  - intros E. injection E as _ <-. cbn. lia.
  - destruct (is_digit c) eqn:Hc; [|discriminate].
    intros E. injection E as E. unfold is_digit in Hc. cbn [scan_digits] in E.
    destruct (digit_con c) as [d|]; [|discriminate Hc].
    pose proof (scan_digits_length r) as Hl.
    destruct (scan_digits r) as [u' rest']. injection E as _ <-.
    cbn [snd String.length] in *. lia.
Qed.

Lemma scan_number_length (s : string) (v : pyval) (rest : string) :
  scan_number s = Some (v, rest) -> String.length rest < String.length s.
Proof.
  unfold scan_number.
  destruct s as [|c r]; [discriminate|].
  destruct (Ascii.eqb c "-").
  - destruct (scan_int_part r) as [[u rest']|] eqn:E; [|discriminate].
    destruct (float_tail rest'); [discriminate|]. intros E'. injection E' as _ <-.
    apply scan_int_part_length in E. cbn [String.length]. lia.
  - destruct (scan_int_part (String c r)) as [[u rest']|] eqn:E; [|discriminate].
    destruct (float_tail rest'); [discriminate|]. intros E'. injection E' as _ <-.
    apply scan_int_part_length in E. exact E.
Qed.

Lemma prefix_drop_length (p s : string) :
  String.prefix p s = true ->
  String.length (str_drop (String.length p) s) + String.length p = String.length s.
Proof.
  revert s. induction p as [|a p IH]; intros s H.
  - cbn. lia.
  - destruct s as [|b s]; [discriminate H|]. cbn [String.prefix] in H.
    destruct (Ascii.ascii_dec a b); [|discriminate H].
    cbn [String.length str_drop]. specialize (IH s H). lia.
Qed.

(** Facts on lengths from the equations of a parsing step. *)
Ltac len_solve :=
  repeat match goal with
    | H : scan_string _ = Some (_, _) |- _ =>
        apply (scan_string_length _ _ _ _ (le_n _)) in H
    | H : skip_ws ?s = String _ _ |- _ =>
        let L := fresh in
        pose proof (skip_ws_length s) as L; rewrite H in L; clear H
    | H : String.prefix _ _ = true |- _ => apply prefix_drop_length in H
    | H : scan_number _ = Some _ |- _ => apply scan_number_length in H
    end;
  repeat match goal with
    | H : context [String.length (skip_ws ?s)] |- _ =>
        let L := fresh in
        let x := fresh in
        pose proof (skip_ws_length s) as L;
        set (x := skip_ws s) in *; clearbody x
    end;
  cbn [String.length str_drop] in *; lia.

(** Follow again the branches a parse took. *)
Ltac replay :=
  repeat first
    [ match goal with
      | H : ?x = _ |- context [match ?x with _ => _ end] => rewrite H
      end
    | match goal with
      | Hall : forall f', _ <= f' -> ?p f' ?s = Some _ |- context [?p _ ?s] =>
          rewrite Hall by lia
      end ].

(** A parse that succeeds with some fuel succeeds with any fuel from a
    bound on, and the bound is at most the number of characters read. *)
Lemma fuel_need (f : nat) :
  (forall s v r, parse_value f s = Some (v, r) ->
     exists n, n + String.length r <= String.length s /\
               forall f', n <= f' -> parse_value f' s = Some (v, r)) /\
  (forall s ps r, parse_members f s = Some (ps, r) ->
     exists n, n + String.length r <= String.length s /\
               forall f', n <= f' -> parse_members f' s = Some (ps, r)) /\
  (forall s vs r, parse_elements f s = Some (vs, r) ->
     exists n, n + String.length r <= String.length s /\
               forall f', n <= f' -> parse_elements f' s = Some (vs, r)).
Proof.
  induction f as [|f (IHv & IHm & IHe)].
  - repeat split; intros; discriminate.
  - split; [|split].
    + intros s v r H. destruct s as [|c s]; [discriminate H|].
      cbn [parse_value] in H. split_parse H; try (injection H as <- <-).
      all: try match goal with
             | E : parse_members _ _ = Some _ |- _ =>
                 apply IHm in E as (m & Hm & Hall); exists (S m)
             | E : parse_elements _ _ = Some _ |- _ =>
                 apply IHe in E as (m & Hm & Hall); exists (S m)
             | _ => exists 1
             end.
      all: (split; [len_solve|]).
      all: intros [|f'] Hf'; [lia|]; cbn [parse_value]; replay;
        first [reflexivity | assumption].
    + intros s ps r H. rewrite parse_members_step in H.
      split_parse H; injection H as <- <-.
      all: repeat match goal with
             | E : parse_value _ _ = Some _ |- _ =>
                 apply IHv in E as (n1 & Hn1 & Hall1)
             | E : parse_members _ _ = Some _ |- _ =>
                 apply IHm in E as (n2 & Hn2 & Hall2)
             end.
      * exists (S n1). split; [len_solve|].
        intros [|f'] Hf'; [lia|]. rewrite parse_members_step. replay. reflexivity.
      * exists (S (n1 + n2)). split; [len_solve|].
        intros [|f'] Hf'; [lia|]. rewrite parse_members_step. replay. reflexivity.
    + intros s vs r H. rewrite parse_elements_step in H.
      split_parse H; injection H as <- <-.
      all: repeat match goal with
             | E : parse_value _ _ = Some _ |- _ =>
                 apply IHv in E as (n1 & Hn1 & Hall1)
             | E : parse_elements _ _ = Some _ |- _ =>
                 apply IHe in E as (n2 & Hn2 & Hall2)
             end.
      * exists (S n1). split; [len_solve|].
        intros [|f'] Hf'; [lia|]. rewrite parse_elements_step. replay. reflexivity.
      * exists (S (n1 + n2)). split; [len_solve|].
        intros [|f'] Hf'; [lia|]. rewrite parse_elements_step. replay. reflexivity.
Qed.

(** Whatever some amount of fuel decodes, [py_loads] decodes: its [None]
    is never an exhausted fuel. *)
Theorem py_loads_complete (f : nat) (text : string) (v : pyval) (rest : string) :
  parse_value f (skip_ws text) = Some (v, rest) ->
  skip_ws rest = "" ->
  py_loads text = Some v.
Proof.
  intros H Hrest. unfold py_loads.
  destruct (proj1 (fuel_need f) _ _ _ H) as (n & Hn & Hall).
  pose proof (skip_ws_length text) as Hlen.
  rewrite Hall by lia. rewrite Hrest. reflexivity.
Qed.

End FuelFacts.

(** ** Save after load *)




(* ================================================================== *)
(** * Further properties of the script *)
(* ================================================================== *)

(** ** Refresh: what is sent, and how each answer is treated *)

(** The world once the token request has been sent. *)
Lemma refresh_after_guard (env : Env) (d : pydict) (tok : pyval) (w : World) :
  dict_get "refresh_token" d = Some tok ->
  py_truthy tok = true ->
  let sent := mkWorld (files w) (ticks w) (posted w ++ [token_request tok]) in
  refresh_access_token env (PDict d) w =
    match http_post env (token_request tok) with
    | PostRaises => (Raise ConnectionError, sent)
    | PostReturns response =>
        if (400 <=? status_code response) && (status_code response <? 600)
        then (Raise (HTTPError (status_code response)), sent)
        else
          match set_trace env with
          | Some e => (Raise e, sent)
          | None =>
              match json_body response with
              | None => (Raise JSONDecodeError, sent)
              | Some token_data =>
                  (let* rejected := lift (py_contains "error" token_data) in
                   if (rejected : bool) then
                     let* err := lift (py_getitem token_data "error") in
                     let* descr :=
                       lift (py_get token_data "error_description" (PStr "")) in
                     raise (ValueError (TokenRefreshFailed err descr))
                   else
                     let* new_credentials := lift (py_copy (PDict d)) in
                     let* access_token := lift (py_getitem token_data "access_token") in
                     let* token_type :=
                       lift (py_get token_data "token_type" (PStr "Bearer")) in
                     let* old_refresh := lift (py_getitem (PDict d) "refresh_token") in
                     let* refresh_token :=
                       lift (py_get token_data "refresh_token" old_refresh) in
                     let* now := time_ms env in
                     let* expires_in := lift (py_getitem token_data "expires_in") in
                     let* lifetime := lift (py_mul_int expires_in 1000) in
                     let* expiry_date :=
                       lift (py_int_add (int_of_float now) lifetime) in
                     lift (py_update new_credentials
                             (refreshed_fields access_token token_type
                                refresh_token expiry_date))) sent
              end
          end
    end.
Proof.
  intros Htok Htruthy. cbn zeta.
  rewrite (refresh_guard_passes env d tok w Htok Htruthy).
  unfold bind at 1. unfold requests_post.
  destruct (http_post env (token_request tok)) as [|response]; [reflexivity|].
  unfold bind at 1. unfold raise_for_status.
  destruct ((400 <=? status_code response) && (status_code response <? 600));
    [reflexivity|].
  unfold ret at 1. unfold bind at 1, ipdb_set_trace.
  destruct (set_trace env); [reflexivity|].
  unfold ret at 1. unfold bind at 1, response_json.
  destruct (json_body response); reflexivity.
Qed.

(** Every effect of a refresh, on any value and in any world. *)
Lemma refresh_world (env : Env) (c : pyval) (w : World) :
  let w' := snd (refresh_access_token env c w) in
  files w' = files w /\
  (ticks w' = ticks w \/ ticks w' = S (ticks w)) /\
  (posted w' = posted w \/
   exists d tok,
     c = PDict d /\ dict_get "refresh_token" d = Some tok /\
     py_truthy tok = true /\ posted w' = posted w ++ [token_request tok]).
Proof.
  cbn zeta. destruct c as [| | | |l|d].
  1-5: unfold_script; unfold py_contains, py_getitem; crunch; solve [auto].
  destruct (dict_get "refresh_token" d) as [tok|] eqn:Htok.
  2:{ unfold refresh_access_token, bind, lift, ret, raise, py_contains.
      rewrite Htok. cbn. auto. }
  destruct (py_truthy tok) eqn:Htruthy.
  2:{ unfold refresh_access_token, bind, lift, ret, raise, py_contains, py_getitem.
      rewrite Htok. cbn. rewrite Htruthy. cbn. auto. }
  rewrite (refresh_after_guard env d tok w Htok Htruthy).
  assert (Hsent : forall w1 : World,
             posted w1 = posted w ++ [token_request tok] ->
             posted w1 = posted w \/
             exists d0 tok0,
               PDict d = PDict d0 /\ dict_get "refresh_token" d0 = Some tok0 /\
               py_truthy tok0 = true /\ posted w1 = posted w ++ [token_request tok0]).
  { intros w1 H. right. exists d, tok. auto. }
  unfold bind, lift, raise, time_ms, py_update, py_copy.
  crunch; (split; [reflexivity|]); (split; [auto|]); apply Hsent; reflexivity.
Qed.

(** X1. [refresh_access_token] never writes a file, reads the clock at
    most once, and sends at most one request: the token request that
    carries the refresh token of the record. *)
Theorem refresh_effects (env : Env) (c : pyval) (w : World) :
  let w' := snd (refresh_access_token env c w) in
  files w' = files w /\
  (ticks w' = ticks w \/ ticks w' = S (ticks w)) /\
  (posted w' = posted w \/
   exists d tok,
     c = PDict d /\ dict_get "refresh_token" d = Some tok /\
     py_truthy tok = true /\ posted w' = posted w ++ [token_request tok]).
Proof. exact (refresh_world env c w). Qed.

Lemma status_gate_false (status : Z) :
  status < 400 \/ 600 <= status -> (400 <=? status) && (status <? 600) = false.
Proof.
  intros [H | H]; apply andb_false_iff; [left; apply Z.leb_gt | right; apply Z.ltb_ge]; lia.
Qed.

Lemma status_gate_true (status : Z) :
  400 <= status < 600 -> (400 <=? status) && (status <? 600) = true.
Proof.
  intros H. apply andb_true_iff. split; [apply Z.leb_le | apply Z.ltb_lt]; lia.
Qed.

(** X2. A 4xx or 5xx answer makes [refresh_access_token] raise the
    [HTTPError] of that status once the request has been sent, whatever
    the body holds and before the breakpoint is reached. *)
Theorem refresh_fails_on_error_status
  (env : Env) (d : pydict) (w : World) (tok : pyval) (status : Z)
  (body : option pyval) :
  dict_get "refresh_token" d = Some tok ->
  py_truthy tok = true ->
  http_post env (token_request tok) = PostReturns (mkResponse status body) ->
  400 <= status < 600 ->
  refresh_access_token env (PDict d) w =
    (Raise (HTTPError status),
     mkWorld (files w) (ticks w) (posted w ++ [token_request tok])).
Proof.
  intros Htok Htruthy Hpost Hstatus.
  rewrite (refresh_after_guard env d tok w Htok Htruthy), Hpost.
  cbn [status_code]. rewrite (status_gate_true status Hstatus). reflexivity.
Qed.

Lemma refresh_fails_on_error_status_witness :
  refresh_access_token
    (Examples.machine_without_ipdb
       (Examples.answering 503 (Some (PDict Examples.good_body))))
    (PDict Examples.stale_record) (Examples.world_with "{}") =
  (Raise (HTTPError 503),
   mkWorld (files (Examples.world_with "{}")) 0 [token_request (PStr "R")]).
Proof.
  apply (refresh_fails_on_error_status
           (Examples.machine_without_ipdb
              (Examples.answering 503 (Some (PDict Examples.good_body))))
           Examples.stale_record (Examples.world_with "{}") (PStr "R") 503
           (Some (PDict Examples.good_body))); try reflexivity; lia.
Defined.

(** X3. When the endpoint cannot be reached, [refresh_access_token] raises
    the exception of [requests.post]; the attempt is the only effect. *)
Theorem refresh_fails_offline
  (env : Env) (d : pydict) (w : World) (tok : pyval) :
  dict_get "refresh_token" d = Some tok ->
  py_truthy tok = true ->
  http_post env (token_request tok) = PostRaises ->
  refresh_access_token env (PDict d) w =
    (Raise ConnectionError,
     mkWorld (files w) (ticks w) (posted w ++ [token_request tok])).
Proof.
  intros Htok Htruthy Hpost.
  rewrite (refresh_after_guard env d tok w Htok Htruthy), Hpost. reflexivity.
Qed.

Lemma refresh_fails_offline_witness :
  refresh_access_token (Examples.machine Examples.offline)
    (PDict Examples.stale_record) (Examples.world_with "{}") =
  (Raise ConnectionError,
   mkWorld (files (Examples.world_with "{}")) 0 [token_request (PStr "R")]).
Proof.
  apply (refresh_fails_offline (Examples.machine Examples.offline)
           Examples.stale_record (Examples.world_with "{}") (PStr "R"));
    reflexivity.
Defined.

(** X4. An answer below 400 whose body holds an [error] field is a
    rejection: [refresh_access_token] raises the [ValueError] made of the
    [error] and the [error_description] (the empty string when absent),
    even when the body also holds an access token. *)
Theorem refresh_error_field_wins
  (env : Env) (d : pydict) (w : World) (tok : pyval) (status : Z)
  (body : pydict) (err : pyval) :
  dict_get "refresh_token" d = Some tok ->
  py_truthy tok = true ->
  http_post env (token_request tok) =
    PostReturns (mkResponse status (Some (PDict body))) ->
  status < 400 \/ 600 <= status ->
  set_trace env = None ->
  dict_get "error" body = Some err ->
  refresh_access_token env (PDict d) w =
    (Raise (ValueError (TokenRefreshFailed err
              (match dict_get "error_description" body with
               | Some descr => descr
               | None => PStr ""
               end))),
     mkWorld (files w) (ticks w) (posted w ++ [token_request tok])).
Proof.
  intros Htok Htruthy Hpost Hstatus Htrace Herr.
  rewrite (refresh_after_guard env d tok w Htok Htruthy), Hpost.
  cbn [status_code json_body]. rewrite (status_gate_false status Hstatus), Htrace.
  unfold bind, lift, raise, py_contains, py_getitem, py_get. rewrite Herr.
  reflexivity.
Qed.

Lemma refresh_error_field_wins_witness :
  refresh_access_token
    (Examples.machine
       (Examples.answering 200
          (Some (PDict (("error", PStr "invalid_grant") :: Examples.good_body)))))
    (PDict Examples.stale_record) (Examples.world_with "{}") =
  (Raise (ValueError (TokenRefreshFailed (PStr "invalid_grant") (PStr ""))),
   mkWorld (files (Examples.world_with "{}")) 0 [token_request (PStr "R")]).
Proof.
  apply (refresh_error_field_wins
           (Examples.machine
              (Examples.answering 200
                 (Some (PDict (("error", PStr "invalid_grant") :: Examples.good_body)))))
           Examples.stale_record (Examples.world_with "{}") (PStr "R") 200
           (("error", PStr "invalid_grant") :: Examples.good_body)
           (PStr "invalid_grant")); try reflexivity.
  left. lia.
Defined.

(** X5. Only 4xx and 5xx count as failures: any other status, a redirect
    or an informational one included, is treated like 200, and a body
    with [access_token] and an integer [expires_in] is accepted. *)
Theorem refresh_accepts_any_status_outside_4xx_5xx
  (env : Env) (d : pydict) (w : World) (tok : pyval) (status : Z)
  (body : pydict) (access : pyval) (n : Z) :
  dict_get "refresh_token" d = Some tok ->
  py_truthy tok = true ->
  http_post env (token_request tok) =
    PostReturns (mkResponse status (Some (PDict body))) ->
  status < 400 \/ 600 <= status ->
  set_trace env = None ->
  dict_get "error" body = None ->
  dict_get "access_token" body = Some access ->
  dict_get "expires_in" body = Some (PInt n) ->
  refresh_access_token env (PDict d) w =
    (Ok (PDict (dict_update d
           (refreshed_fields access
              (match dict_get "token_type" body with
               | Some t => t | None => PStr "Bearer" end)
              (match dict_get "refresh_token" body with
               | Some r => r | None => tok end)
              (PInt (int_of_float (clock_ms env (ticks w)) + n * 1000))))),
     mkWorld (files w) (S (ticks w)) (posted w ++ [token_request tok])).
Proof.
  intros Htok Htruthy Hpost Hstatus Htrace Herr Haccess Hexp.
  rewrite (refresh_after_guard env d tok w Htok Htruthy), Hpost.
  cbn [status_code json_body]. rewrite (status_gate_false status Hstatus), Htrace.
  unfold bind, lift, py_contains, py_getitem, py_get, py_copy, py_update, time_ms.
  rewrite Herr, Haccess, Htok. cbn [ticks files posted]. rewrite Hexp. reflexivity.
Qed.

Lemma refresh_accepts_any_status_outside_4xx_5xx_witness :
  fst (refresh_access_token
         (Examples.machine (Examples.answering 304 (Some (PDict Examples.good_body))))
         (PDict Examples.stale_record) (Examples.world_with "{}")) =
  Ok (PDict (dict_update Examples.stale_record
               (refreshed_fields (PStr "A") (PStr "Bearer") (PStr "R")
                  (PInt 1700003600000)))).
Proof.
  rewrite (refresh_accepts_any_status_outside_4xx_5xx
             (Examples.machine (Examples.answering 304 (Some (PDict Examples.good_body))))
             Examples.stale_record (Examples.world_with "{}") (PStr "R") 304
             Examples.good_body (PStr "A") 3600); try reflexivity.
  left. lia.
Defined.

(** X6. A body that is not JSON makes [refresh_access_token] raise the
    decoding error of [response.json()], after the request. *)
Theorem refresh_fails_on_undecodable_body
  (env : Env) (d : pydict) (w : World) (tok : pyval) (status : Z) :
  dict_get "refresh_token" d = Some tok ->
  py_truthy tok = true ->
  http_post env (token_request tok) = PostReturns (mkResponse status None) ->
  status < 400 \/ 600 <= status ->
  set_trace env = None ->
  refresh_access_token env (PDict d) w =
    (Raise JSONDecodeError,
     mkWorld (files w) (ticks w) (posted w ++ [token_request tok])).
Proof.
  intros Htok Htruthy Hpost Hstatus Htrace.
  rewrite (refresh_after_guard env d tok w Htok Htruthy), Hpost.
  cbn [status_code json_body]. rewrite (status_gate_false status Hstatus), Htrace.
  reflexivity.
Qed.

Lemma refresh_fails_on_undecodable_body_witness :
  refresh_access_token (Examples.machine (Examples.answering 200 None))
    (PDict Examples.stale_record) (Examples.world_with "{}") =
  (Raise JSONDecodeError,
   mkWorld (files (Examples.world_with "{}")) 0 [token_request (PStr "R")]).
Proof.
  apply (refresh_fails_on_undecodable_body
           (Examples.machine (Examples.answering 200 None))
           Examples.stale_record (Examples.world_with "{}") (PStr "R") 200);
    try reflexivity.
  left. lia.
Defined.

(** X7. The breakpoint of line 120 sits between the answer and its use:
    when the debugger session raises (the package is missing, or the
    session is quit), [refresh_access_token] raises that exception
    although the endpoint has already answered below 400, and the new
    tokens of the answer are lost. *)
Theorem refresh_fails_at_breakpoint
  (env : Env) (d : pydict) (w : World) (tok : pyval) (response : Response) (e : exn) :
  dict_get "refresh_token" d = Some tok ->
  py_truthy tok = true ->
  http_post env (token_request tok) = PostReturns response ->
  status_code response < 400 \/ 600 <= status_code response ->
  set_trace env = Some e ->
  refresh_access_token env (PDict d) w =
    (Raise e, mkWorld (files w) (ticks w) (posted w ++ [token_request tok])).
Proof.
  intros Htok Htruthy Hpost Hstatus Htrace.
  rewrite (refresh_after_guard env d tok w Htok Htruthy), Hpost.
  rewrite (status_gate_false _ Hstatus), Htrace. reflexivity.
Qed.

Lemma refresh_fails_at_breakpoint_witness :
  refresh_access_token
    (Examples.machine_without_ipdb
       (Examples.answering 200 (Some (PDict Examples.good_body))))
    (PDict Examples.stale_record) (Examples.world_with "{}") =
  (Raise (ModuleNotFoundError "ipdb"),
   mkWorld (files (Examples.world_with "{}")) 0 [token_request (PStr "R")]).
Proof.
  apply (refresh_fails_at_breakpoint
           (Examples.machine_without_ipdb
              (Examples.answering 200 (Some (PDict Examples.good_body))))
           Examples.stale_record (Examples.world_with "{}") (PStr "R")
           (mkResponse 200 (Some (PDict Examples.good_body)))); try reflexivity.
  left. cbn. lia.
Defined.

(** X8. The guard of line 96 tests the truth value of the refresh token:
    every false value ([None], [False], 0, the empty string, list or
    dict) counts as a missing token, and nothing is sent. *)
Theorem refresh_rejects_false_token
  (env : Env) (d : pydict) (w : World) (tok : pyval) :
  dict_get "refresh_token" d = Some tok ->
  py_truthy tok = false ->
  refresh_access_token env (PDict d) w = (Raise (ValueError NoRefreshToken), w).
Proof.
  intros Htok Hfalse.
  unfold refresh_access_token, bind, lift, ret, raise, py_contains, py_getitem.
  rewrite Htok. cbn [negb]. rewrite Hfalse. reflexivity.
Qed.

Lemma refresh_rejects_false_token_witness :
  refresh_access_token (Examples.machine (Examples.answering 200 None))
    (PDict [("access_token", PStr "old"); ("refresh_token", PNone)])
    (Examples.world_with "{}") =
  (Raise (ValueError NoRefreshToken), Examples.world_with "{}").
Proof.
  apply (refresh_rejects_false_token
           (Examples.machine (Examples.answering 200 None))
           [("access_token", PStr "old"); ("refresh_token", PNone)]
           (Examples.world_with "{}") PNone); reflexivity.
Defined.

(** X9. [expires_in] must be a number: a string, [None], a list or a
    dict in its place makes the computation of [expiry_date] raise
    [TypeError], after the request and with no record returned. *)
Theorem refresh_fails_on_non_numeric_lifetime
  (env : Env) (d : pydict) (w : World) (tok : pyval) (status : Z)
  (body : pydict) (access expires_in : pyval) :
  dict_get "refresh_token" d = Some tok ->
  py_truthy tok = true ->
  http_post env (token_request tok) =
    PostReturns (mkResponse status (Some (PDict body))) ->
  status < 400 \/ 600 <= status ->
  set_trace env = None ->
  dict_get "error" body = None ->
  dict_get "access_token" body = Some access ->
  dict_get "expires_in" body = Some expires_in ->
  (forall n, expires_in <> PInt n) ->
  (forall b, expires_in <> PBool b) ->
  refresh_access_token env (PDict d) w =
    (Raise TypeError,
     mkWorld (files w) (S (ticks w)) (posted w ++ [token_request tok])).
Proof.
  intros Htok Htruthy Hpost Hstatus Htrace Herr Haccess Hexp Hint Hbool.
  rewrite (refresh_after_guard env d tok w Htok Htruthy), Hpost.
  cbn [status_code json_body]. rewrite (status_gate_false status Hstatus), Htrace.
  unfold bind, lift, py_contains, py_getitem, py_get, py_copy, py_update, time_ms.
  rewrite Herr, Haccess, Htok. cbn [ticks files posted]. rewrite Hexp.
  destruct expires_in as [|b|n|s|l|b]; try reflexivity.
  - exfalso. apply (Hbool b). reflexivity.
  - exfalso. apply (Hint n). reflexivity.
Qed.

Lemma refresh_fails_on_non_numeric_lifetime_witness :
  fst (refresh_access_token
         (Examples.machine
            (Examples.answering 200
               (Some (PDict [("access_token", PStr "A"); ("expires_in", PStr "3600")]))))
         (PDict Examples.stale_record) (Examples.world_with "{}")) =
  Raise TypeError.
Proof.
  rewrite (refresh_fails_on_non_numeric_lifetime
             (Examples.machine
                (Examples.answering 200
                   (Some (PDict [("access_token", PStr "A");
                                 ("expires_in", PStr "3600")]))))
             Examples.stale_record (Examples.world_with "{}") (PStr "R") 200
             [("access_token", PStr "A"); ("expires_in", PStr "3600")]
             (PStr "A") (PStr "3600")); try reflexivity; try discriminate.
  left. lia.
Defined.

(** X10. A JSON body that is not an object (a list, a string, a number,
    [true], [false] or [null]) always ends in [TypeError]: on the
    membership test, or on the first subscript. *)
Theorem refresh_fails_on_non_object_body
  (env : Env) (d : pydict) (w : World) (tok : pyval) (status : Z)
  (token_data : pyval) :
  dict_get "refresh_token" d = Some tok ->
  py_truthy tok = true ->
  http_post env (token_request tok) =
    PostReturns (mkResponse status (Some token_data)) ->
  status < 400 \/ 600 <= status ->
  set_trace env = None ->
  (forall body, token_data <> PDict body) ->
  refresh_access_token env (PDict d) w =
    (Raise TypeError,
     mkWorld (files w) (ticks w) (posted w ++ [token_request tok])).
Proof.
  intros Htok Htruthy Hpost Hstatus Htrace Hobj.
  rewrite (refresh_after_guard env d tok w Htok Htruthy), Hpost.
  cbn [status_code json_body]. rewrite (status_gate_false status Hstatus), Htrace.
  unfold bind, lift, raise, py_contains, py_getitem, py_get, py_copy.
  destruct token_data as [|b|n|s|l|b]; try reflexivity.
  - destruct (str_contains "error" s); reflexivity.
  - destruct (existsb (pyval_is_str "error") l); reflexivity.
  - exfalso. apply (Hobj b). reflexivity.
Qed.

Lemma refresh_fails_on_non_object_body_witness :
  refresh_access_token
    (Examples.machine (Examples.answering 200 (Some (PList [PStr "error"]))))
    (PDict Examples.stale_record) (Examples.world_with "{}") =
  (Raise TypeError,
   mkWorld (files (Examples.world_with "{}")) 0 [token_request (PStr "R")]).
Proof.
  apply (refresh_fails_on_non_object_body
           (Examples.machine (Examples.answering 200 (Some (PList [PStr "error"]))))
           Examples.stale_record (Examples.world_with "{}") (PStr "R") 200
           (PList [PStr "error"])); try reflexivity; try discriminate.
  left. lia.
Defined.

(** ** Validity over time *)

(** X11. Validity only decays: a record with an integer [expiry_date] that
    is valid at some reading of the clock is valid at every earlier
    reading, so a record found stale stays stale until it is refreshed. *)
Theorem validity_only_decays
  (env : Env) (d : pydict) (w_early w_late : World) (expiry : Z) :
  dict_get "expiry_date" d = Some (PInt expiry) ->
  (clock_ms env (ticks w_early) <= clock_ms env (ticks w_late))%Q ->
  fst (is_token_valid env (PDict d) w_late) = Ok true ->
  fst (is_token_valid env (PDict d) w_early) = Ok true.
Proof.
  intros Hexp Hclock. rewrite !(is_token_valid_int env d _ expiry Hexp). cbn [fst].
  intros H. injection H as H. f_equal.
  apply float_lt_int_spec. apply float_lt_int_spec in H.
  eapply Qle_lt_trans; eassumption.
Qed.

Lemma validity_only_decays_witness :
  let env := mkEnv "/home/user" "/work"
               (fun n => inject_Z (1700000000000 + 1000 * Z.of_nat n))
               Examples.offline None in
  fst (is_token_valid env (PDict Examples.fresh_record)
         (mkWorld ∅ 3 [])) = Ok true.
Proof.
  cbn zeta.
  apply (validity_only_decays
           (mkEnv "/home/user" "/work"
              (fun n => inject_Z (1700000000000 + 1000 * Z.of_nat n))
              Examples.offline None)
           Examples.fresh_record (mkWorld ∅ 3 []) (mkWorld ∅ 7 []) 1700000360000).
  - reflexivity.
  - cbn. rewrite <- Zle_Qle. lia.
  - vm_compute. reflexivity.
Defined.

(** ** The broker on unusual credential files *)

Lemma get_openapi_credentials_unloaded (env : Env) (custom_path : option string)
      (w : World) (e : exn) :
  fst (load_qwen_credentials env custom_path w) = Raise e ->
  get_openapi_credentials env custom_path w = (Raise e, w).
Proof.
  intros H. pose proof (load_keeps_world env custom_path w) as Hw.
  unfold get_openapi_credentials, bind at 1.
  destruct (load_qwen_credentials env custom_path w) as [o w0].
  cbn [fst snd] in H, Hw. subst o w0. reflexivity.
Qed.

Lemma get_openapi_credentials_unchecked (env : Env) (custom_path : option string)
      (w w1 : World) (loaded : pyval) (e : exn) :
  fst (load_qwen_credentials env custom_path w) = Ok loaded ->
  is_token_valid env loaded w = (Raise e, w1) ->
  get_openapi_credentials env custom_path w = (Raise e, w1).
Proof.
  intros Hload Hvalid. pose proof (load_keeps_world env custom_path w) as Hw.
  unfold get_openapi_credentials, bind at 1.
  destruct (load_qwen_credentials env custom_path w) as [o w0].
  cbn [fst snd] in Hload, Hw. subst o w0.
  unfold bind at 1. rewrite Hvalid. reflexivity.
Qed.




(** X13. A credential file whose JSON value is not an object (a list, a
    string, a number, [true], [false], [null]) never yields a descriptor:
    the call raises [TypeError] or the "no refresh token" [ValueError],
    writes no file and sends no request. *)
Theorem get_credentials_needs_an_object
  (env : Env) (custom_path : option string) (w : World) (loaded : pyval) :
  fst (load_qwen_credentials env custom_path w) = Ok loaded ->
  (forall d, loaded <> PDict d) ->
  let r := get_openapi_credentials env custom_path w in
  (fst r = Raise TypeError \/ fst r = Raise (ValueError NoRefreshToken)) /\
  files (snd r) = files w /\
  posted (snd r) = posted w.
Proof.
  intros Hload Hobj. cbn zeta.
  destruct (is_token_valid env loaded w) as [[valid|e] w1] eqn:Hvalid.
  - destruct valid.
    + exfalso. revert Hvalid. unfold_script. unfold py_contains, py_getitem.
      destruct loaded as [|b|n|s|l|d]; try discriminate.
      * destruct (str_contains "expiry_date" s); discriminate.
      * destruct (existsb (pyval_is_str "expiry_date") l); discriminate.
      * intros _. apply (Hobj d). reflexivity.
    + rewrite (get_openapi_credentials_stale env custom_path w w1 loaded Hload Hvalid).
      assert (Hw1 : files w1 = files w /\ posted w1 = posted w).
      { pose proof (is_token_valid_keeps_files env loaded w) as H.
        rewrite Hvalid in H. exact H. }
      destruct Hw1 as [Hf Hp].
      assert (Href : (fst (refresh_access_token env loaded w1) = Raise TypeError \/
                      fst (refresh_access_token env loaded w1)
                      = Raise (ValueError NoRefreshToken)) /\
                     snd (refresh_access_token env loaded w1) = w1).
      { unfold refresh_access_token, bind, lift, ret, raise, py_contains, py_getitem.
        destruct loaded as [|b|n|s|l|d]; cbn [fst snd]; auto.
        - destruct (str_contains "refresh_token" s); cbn [negb fst snd]; auto.
        - destruct (existsb (pyval_is_str "refresh_token") l); cbn [negb fst snd]; auto.
        - exfalso. apply (Hobj d). reflexivity. }
      destruct (refresh_access_token env loaded w1) as [[refreshed|e] w2];
        cbn [fst snd] in *; destruct Href as [[Hr | Hr] ->]; try discriminate Hr;
        rewrite Hr; auto.
  - rewrite (get_openapi_credentials_unchecked env custom_path w w1 loaded e
               Hload Hvalid).
    pose proof (is_token_valid_keeps_files env loaded w) as H.
    rewrite Hvalid in H. cbn [fst snd] in *. destruct H as [Hf Hp].
    split; [|auto]. left. revert Hvalid. unfold_script. unfold py_contains, py_getitem.
    destruct loaded as [|b|n|s|l|d].
    + intros [= <- _]. reflexivity.
    + intros [= <- _]. reflexivity.
    + intros [= <- _]. reflexivity.
    + destruct (str_contains "expiry_date" s); cbn; intros [= <- _] || discriminate.
      reflexivity.
    + destruct (existsb (pyval_is_str "expiry_date") l); cbn;
        intros [= <- _] || discriminate. reflexivity.
    + intros _. exfalso. apply (Hobj d). reflexivity.
Qed.

Lemma get_credentials_needs_an_object_witness :
  let env := Examples.machine (Examples.answering 200 (Some (PDict Examples.good_body))) in
  let w := Examples.world_with "[1, 2]" in
  let r := get_openapi_credentials env None w in
  (fst r = Raise TypeError \/ fst r = Raise (ValueError NoRefreshToken)) /\
  files (snd r) = files w /\
  posted (snd r) = posted w.
Proof.
  apply (get_credentials_needs_an_object
           (Examples.machine (Examples.answering 200 (Some (PDict Examples.good_body))))
           None (Examples.world_with "[1, 2]") (PList [PInt 1; PInt 2])).
  - vm_compute. reflexivity.
  - discriminate.
Defined.

(** X14. An [expiry_date] that is not a number (a date written as a
    string, [null], ...) does not count as expired: the subtraction of
    the buffer raises [TypeError], and [get_openapi_credentials] stops
    there, without a refresh, a request or a write. *)
Theorem get_credentials_fails_on_non_numeric_expiry
  (env : Env) (custom_path : option string) (w : World) (d : pydict)
  (expiry : pyval) :
  fst (load_qwen_credentials env custom_path w) = Ok (PDict d) ->
  dict_get "expiry_date" d = Some expiry ->
  (forall n, expiry <> PInt n) ->
  (forall b, expiry <> PBool b) ->
  get_openapi_credentials env custom_path w =
    (Raise TypeError, mkWorld (files w) (S (ticks w)) (posted w)).
Proof.
  intros Hload Hexp Hint Hbool.
  apply (get_openapi_credentials_unchecked env custom_path w _ (PDict d) _ Hload).
  unfold is_token_valid, bind, lift, ret, py_contains, py_getitem, time_ms.
  rewrite Hexp. cbn [negb].
  destruct expiry as [|b|n|s|l|b]; try reflexivity.
  - exfalso. apply (Hbool b). reflexivity.
  - exfalso. apply (Hint n). reflexivity.
Qed.

Lemma get_credentials_fails_on_non_numeric_expiry_witness :
  let env := Examples.machine (Examples.answering 200 (Some (PDict Examples.good_body))) in
  let d := [("access_token", PStr "tok"); ("expiry_date", PStr "2030-01-01")] in
  let w := Examples.world_with (py_dumps (PDict d)) in
  get_openapi_credentials env None w =
    (Raise TypeError, mkWorld (files w) 1 []).
Proof.
  apply (get_credentials_fails_on_non_numeric_expiry
           (Examples.machine (Examples.answering 200 (Some (PDict Examples.good_body))))
           None
           (Examples.world_with
              (py_dumps (PDict [("access_token", PStr "tok");
                                ("expiry_date", PStr "2030-01-01")])))
           [("access_token", PStr "tok"); ("expiry_date", PStr "2030-01-01")]
           (PStr "2030-01-01")); try discriminate.
  - vm_compute. reflexivity.
  - reflexivity.
Defined.

(** ** What one call may touch *)

(** X15. Whatever happens, one call of [get_openapi_credentials] leaves
    every file other than the credential file as it was, and sends at
    most one request, a token request. *)
Theorem get_credentials_footprint
  (env : Env) (custom_path : option string) (w : World) :
  let w' := snd (get_openapi_credentials env custom_path w) in
  (forall p : string,
      p <> get_qwen_credential_path env custom_path ->
      files w' !! p = files w !! p) /\
  (posted w' = posted w \/ exists tok, posted w' = posted w ++ [token_request tok]).
Proof.
  cbn zeta.
  destruct (load_qwen_credentials env custom_path w) as [[loaded|e] w0] eqn:Hload.
  2:{ rewrite (get_openapi_credentials_unloaded env custom_path w e)
        by (rewrite Hload; reflexivity). cbn [snd]. auto. }
  assert (Hl : fst (load_qwen_credentials env custom_path w) = Ok loaded)
    by (rewrite Hload; reflexivity).
  pose proof (is_token_valid_keeps_files env loaded w) as [Hf Hp].
  destruct (is_token_valid env loaded w) as [[[|]|e] w1] eqn:Hvalid;
    cbn [fst snd] in Hf, Hp.
  - rewrite (get_openapi_credentials_valid env custom_path w w1 loaded Hl Hvalid).
    cbn [snd]. rewrite Hf, Hp. auto.
  - rewrite (get_openapi_credentials_stale env custom_path w w1 loaded Hl Hvalid).
    pose proof (refresh_world env loaded w1) as (Hrf & _ & Hrp).
    destruct (refresh_access_token env loaded w1) as [[refreshed|e] w2];
      cbn [fst snd files posted] in *.
    + split.
      * intros p Hp'. rewrite lookup_insert_ne by congruence. rewrite Hrf, Hf.
        reflexivity.
      * destruct Hrp as [Hrp | (d & tok & _ & _ & _ & Hrp)]; rewrite Hrp, Hp; eauto.
    + split.
      * intros p _. rewrite Hrf, Hf. reflexivity.
      * destruct Hrp as [Hrp | (d & tok & _ & _ & _ & Hrp)]; rewrite Hrp, Hp; eauto.
  - rewrite (get_openapi_credentials_unchecked env custom_path w w1 loaded e Hl Hvalid).
    cbn [snd]. rewrite Hf, Hp. auto.
Qed.


(** ** From a stale record to a saved one *)

Lemma load_well_formed (env : Env) (custom_path : option string) (w : World)
      (v : pyval) :
  fst (load_qwen_credentials env custom_path w) = Ok v -> well_formed v = true.
Proof.
  unfold load_qwen_credentials, read_json.
  destruct (files w !! _) as [text|]; [|discriminate].
  destruct (py_loads text) as [v'|] eqn:E; [|discriminate].
  cbn [fst]. intros [= <-]. eapply JsonFacts.loads_well_formed, E.
Qed.

Lemma dict_get_well_formed (k : string) (d : pydict) (v : pyval) :
  well_formed (PDict d) = true -> dict_get k d = Some v -> well_formed v = true.
Proof.
  cbn [well_formed]. intros H. apply andb_true_iff in H as [_ H]. revert H.
  induction d as [|[k0 v0] d IH]; cbn [dict_get forallb snd]; [discriminate|].
  intros H. apply andb_true_iff in H as [Hv0 H].
  destruct (String.eqb k k0); [intros [= <-]; exact Hv0 | apply IH, H].
Qed.

Lemma dict_update_well_formed (other d : pydict) :
  well_formed (PDict d) = true ->
  forallb (fun kv => well_formed (snd kv)) other = true ->
  well_formed (PDict (dict_update d other)) = true.
Proof.
  unfold dict_update. revert d.
  induction other as [|[k v] other IH]; intros d Hd H; [exact Hd|].
  cbn [forallb snd] in H. apply andb_true_iff in H as [Hv H].
  cbn [fold_left fst snd]. apply IH; [|exact H].
  apply JsonFacts.dict_set_well_formed; assumption.
Qed.

(** Reading a file that holds the serialisation of a value. *)
Lemma load_after_write (env : Env) (custom_path : option string) (w : World)
      (v : pyval) :
  well_formed v = true ->
  files w !! get_qwen_credential_path env custom_path = Some (py_dumps v) ->
  load_qwen_credentials env custom_path w = (Ok v, w).
Proof.
  intros Hwf Hfile. unfold load_qwen_credentials, read_json.
  rewrite Hfile, (JsonFacts.loads_dumps v Hwf). reflexivity.
Qed.



(** The run of [get_openapi_credentials] on a stale record whose refresh
    succeeds. *)
Lemma get_openapi_credentials_refreshed
  (env : Env) (custom_path : option string) (w w1 : World) (d : pydict)
  (tok : pyval) (status : Z) (body : pydict) (access : pyval) (n : Z) :
  fst (load_qwen_credentials env custom_path w) = Ok (PDict d) ->
  is_token_valid env (PDict d) w = (Ok false, w1) ->
  dict_get "refresh_token" d = Some tok ->
  py_truthy tok = true ->
  http_post env (token_request tok) =
    PostReturns (mkResponse status (Some (PDict body))) ->
  200 <= status < 300 ->
  set_trace env = None ->
  dict_get "error" body = None ->
  dict_get "access_token" body = Some access ->
  dict_get "expires_in" body = Some (PInt n) ->
  let new :=
    PDict (dict_update d
             (refreshed_fields access
                (match dict_get "token_type" body with
                 | Some t => t | None => PStr "Bearer" end)
                (match dict_get "refresh_token" body with
                 | Some r => r | None => tok end)
                (PInt (int_of_float (clock_ms env (ticks w1)) + n * 1000)))) in
  get_openapi_credentials env custom_path w =
    (openapi_descriptor new,
     mkWorld (<[get_qwen_credential_path env custom_path := py_dumps new]> (files w))
       (S (ticks w1)) (posted w ++ [token_request tok])).
Proof.
  intros Hload Hvalid Htok Htruthy Hpost Hstatus Htrace Herr Haccess Hexp. cbn zeta.
  rewrite (get_openapi_credentials_stale env custom_path w w1 (PDict d) Hload Hvalid).
  rewrite (refresh_reaches_body env d tok w1 status body
             Htok Htruthy Hpost Hstatus Htrace Herr).
  rewrite Haccess, Hexp. cbn [py_mul_int py_int_add files ticks posted].
  pose proof (is_token_valid_keeps_files env (PDict d) w) as [Hf Hp].
  rewrite Hvalid in Hf, Hp. cbn [snd] in Hf, Hp. rewrite Hf, Hp. reflexivity.
Qed.






(** X19. A refresh serves the next call: while the clock stays more than
    30 s before the new expiry, calling [get_openapi_credentials] again
    returns the same descriptor from the saved record, without a request
    and without a write. *)
Theorem refreshed_token_is_reused
  (env : Env) (custom_path : option string) (w w1 : World) (d : pydict)
  (tok : pyval) (status : Z) (body : pydict) (access : pyval) (n : Z) :
  fst (load_qwen_credentials env custom_path w) = Ok (PDict d) ->
  is_token_valid env (PDict d) w = (Ok false, w1) ->
  dict_get "refresh_token" d = Some tok ->
  py_truthy tok = true ->
  http_post env (token_request tok) =
    PostReturns (mkResponse status (Some (PDict body))) ->
  200 <= status < 300 ->
  set_trace env = None ->
  dict_get "error" body = None ->
  dict_get "access_token" body = Some access ->
  dict_get "expires_in" body = Some (PInt n) ->
  well_formed (PDict body) = true ->
  (clock_ms env (S (ticks w1)) <
   inject_Z (int_of_float (clock_ms env (ticks w1)) + n * 1000 - 30000))%Q ->
  let first := get_openapi_credentials env custom_path w in
  let second := get_openapi_credentials env custom_path (snd first) in
  fst second = fst first /\
  files (snd second) = files (snd first) /\
  posted (snd second) = posted (snd first).
Proof.
  intros Hload Hvalid Htok Htruthy Hpost Hstatus Htrace Herr Haccess Hexp Hbody Hclock.
  cbn zeta.
  rewrite (get_openapi_credentials_refreshed env custom_path w w1 d tok status body
             access n Hload Hvalid Htok Htruthy Hpost Hstatus Htrace Herr Haccess Hexp).
  cbn [fst snd].
  set (new := PDict (dict_update d _)).
  set (saved := mkWorld _ _ _).
  assert (Hwf : well_formed new = true).
  { subst new. apply dict_update_well_formed.
    - eapply load_well_formed, Hload.
    - unfold refreshed_fields. cbn [forallb snd well_formed].
      rewrite (dict_get_well_formed _ _ _ Hbody Haccess).
      destruct (dict_get "token_type" body) as [t|] eqn:Et;
        [rewrite (dict_get_well_formed _ _ _ Hbody Et) | cbn [well_formed]];
        (destruct (dict_get "refresh_token" body) as [r|] eqn:Er;
         [rewrite (dict_get_well_formed _ _ _ Hbody Er)
         | rewrite (dict_get_well_formed _ _ _
                      (load_well_formed env custom_path w _ Hload) Htok)]);
        reflexivity. }
  assert (Hreload : fst (load_qwen_credentials env custom_path saved) = Ok new).
  { rewrite (load_after_write env custom_path saved new Hwf); [reflexivity|].
    subst saved. cbn [files]. apply lookup_insert_eq. }
  assert (Hcheck : is_token_valid env new saved =
                   (Ok true, mkWorld (files saved) (S (ticks saved)) (posted saved))).
  { subst new.
    rewrite (is_token_valid_int env _ saved
               (int_of_float (clock_ms env (ticks w1)) + n * 1000)).
    - f_equal. f_equal. apply float_lt_int_spec. subst saved. cbn [ticks]. exact Hclock.
    - rewrite dict_get_update. reflexivity. }
  rewrite (get_openapi_credentials_valid env custom_path saved _ new Hreload Hcheck).
  cbn [fst snd files posted]. auto.
Qed.

Lemma refreshed_token_is_reused_witness :
  let env := Examples.machine (Examples.answering 200 (Some (PDict Examples.good_body))) in
  let w := Examples.world_with (py_dumps (PDict Examples.stale_record)) in
  let first := get_openapi_credentials env None w in
  let second := get_openapi_credentials env None (snd first) in
  fst second = fst first /\
  files (snd second) = files (snd first) /\
  posted (snd second) = posted (snd first).
Proof.
  apply (refreshed_token_is_reused
           (Examples.machine (Examples.answering 200 (Some (PDict Examples.good_body))))
           None (Examples.world_with (py_dumps (PDict Examples.stale_record)))
           (mkWorld (files (Examples.world_with (py_dumps (PDict Examples.stale_record))))
              1 [])
           Examples.stale_record (PStr "R") 200 Examples.good_body (PStr "A") 3600);
    try (vm_compute; reflexivity); try lia.
Defined.

Lemma int_of_float_le (x : Q) : (0 <= x)%Q -> (inject_Z (int_of_float x) <= x)%Q.
Proof.
  destruct x as [a b]. unfold Qle, int_of_float, inject_Z. cbn [Qnum Qden].
  intros H. assert (Ha : 0 <= a) by lia.
  pose proof (Z.quot_rem' a (Z.pos b)) as E.
  pose proof (Z.rem_bound_pos a (Z.pos b) Ha ltac:(lia)). nia.
Qed.

(** X20. A lifetime of 30 s or less is swallowed by the buffer: the record
    a successful refresh returns is already stale at the time of the
    refresh and at every later time, so each call will refresh again. *)
Theorem short_lived_token_is_stale_at_once
  (env : Env) (d : pydict) (w w_later : World) (tok : pyval) (status : Z)
  (body : pydict) (access : pyval) (n : Z) :
  dict_get "refresh_token" d = Some tok ->
  py_truthy tok = true ->
  http_post env (token_request tok) =
    PostReturns (mkResponse status (Some (PDict body))) ->
  200 <= status < 300 ->
  set_trace env = None ->
  dict_get "error" body = None ->
  dict_get "access_token" body = Some access ->
  dict_get "expires_in" body = Some (PInt n) ->
  n <= 30 ->
  (0 <= clock_ms env (ticks w))%Q ->
  (clock_ms env (ticks w) <= clock_ms env (ticks w_later))%Q ->
  exists new : pyval,
    fst (refresh_access_token env (PDict d) w) = Ok new /\
    fst (is_token_valid env new w_later) = Ok false.
Proof.
  intros Htok Htruthy Hpost Hstatus Htrace Herr Haccess Hexp Hn Hpos Hlater.
  rewrite (refresh_reaches_body env d tok w status body
             Htok Htruthy Hpost Hstatus Htrace Herr).
  rewrite Haccess, Hexp. cbn [py_mul_int py_int_add fst].
  eexists. split; [reflexivity|].
  rewrite (is_token_valid_int env _ w_later
             (int_of_float (clock_ms env (ticks w)) + n * 1000))
    by (rewrite dict_get_update; reflexivity).
  cbn [fst]. f_equal. apply float_lt_int_false. intros Hlt.
  apply (Qlt_irrefl (clock_ms env (ticks w_later))).
  eapply Qlt_le_trans; [exact Hlt|].
  eapply Qle_trans; [|exact Hlater].
  eapply Qle_trans; [|apply int_of_float_le, Hpos].
  rewrite <- Zle_Qle. lia.
Qed.

Lemma short_lived_token_is_stale_at_once_witness :
  let env := Examples.machine
               (Examples.answering 200
                  (Some (PDict [("access_token", PStr "A"); ("expires_in", PInt 30)]))) in
  exists new : pyval,
    fst (refresh_access_token env (PDict Examples.stale_record)
           (Examples.world_with "{}")) = Ok new /\
    fst (is_token_valid env new (mkWorld ∅ 1 [])) = Ok false.
Proof.
  apply (short_lived_token_is_stale_at_once
           (Examples.machine
              (Examples.answering 200
                 (Some (PDict [("access_token", PStr "A"); ("expires_in", PInt 30)]))))
           Examples.stale_record (Examples.world_with "{}") (mkWorld ∅ 1 [])
           (PStr "R") 200 [("access_token", PStr "A"); ("expires_in", PInt 30)]
           (PStr "A") 30); try reflexivity; try lia; try discriminate.
Defined.

(** ** The descriptor handed to the callers *)

(** X21. Every descriptor [get_openapi_credentials] returns is a dict with
    exactly the keys [api_key], [base_url] and [model], in this order;
    [base_url] is a string and [model] is always "qwen3-coder-plus". The
    three subscripts the agent script does on it cannot raise. *)
Theorem descriptor_has_three_fields
  (env : Env) (custom_path : option string) (w : World) (r : pyval) :
  fst (get_openapi_credentials env custom_path w) = Ok r ->
  exists (api_key : pyval) (base_url : string),
    r = PDict [("api_key", api_key);
               ("base_url", PStr base_url);
               ("model", PStr "qwen3-coder-plus")] /\
    py_getitem r "model" = Ok (PStr "qwen3-coder-plus") /\
    py_getitem r "api_key" = Ok api_key /\
    py_getitem r "base_url" = Ok (PStr base_url).
Proof.
  intros H.
  assert (Hdesc : exists c, openapi_descriptor c = Ok r).
  { destruct (load_qwen_credentials env custom_path w) as [[loaded|e] w0] eqn:Hload.
    2:{ rewrite (get_openapi_credentials_unloaded env custom_path w e) in H
          by (rewrite Hload; reflexivity). discriminate H. }
    assert (Hl : fst (load_qwen_credentials env custom_path w) = Ok loaded)
      by (rewrite Hload; reflexivity).
    destruct (is_token_valid env loaded w) as [[[|]|e] w1] eqn:Hvalid.
    - rewrite (get_openapi_credentials_valid env custom_path w w1 loaded Hl Hvalid) in H.
      eauto.
    - rewrite (get_openapi_credentials_stale env custom_path w w1 loaded Hl Hvalid) in H.
      destruct (refresh_access_token env loaded w1) as [[refreshed|e] w2];
        [eauto | discriminate H].
    - rewrite (get_openapi_credentials_unchecked env custom_path w w1 loaded e
                 Hl Hvalid) in H. discriminate H. }
  destruct Hdesc as [c Hc]. apply openapi_descriptor_inv in Hc.
  destruct Hc as (d & url & api & _ & _ & _ & ->).
  exists api, (with_version (with_scheme url)). repeat split.
Qed.

Lemma descriptor_has_three_fields_witness :
  exists (api_key : pyval) (base_url : string),
    PDict [("api_key", PStr "tok");
           ("base_url", PStr "https://dashscope.aliyuncs.com/compatible-mode/v1");
           ("model", PStr "qwen3-coder-plus")]
    = PDict [("api_key", api_key);
             ("base_url", PStr base_url);
             ("model", PStr "qwen3-coder-plus")] /\
    py_getitem
      (PDict [("api_key", PStr "tok");
              ("base_url", PStr "https://dashscope.aliyuncs.com/compatible-mode/v1");
              ("model", PStr "qwen3-coder-plus")]) "model"
    = Ok (PStr "qwen3-coder-plus") /\
    py_getitem
      (PDict [("api_key", PStr "tok");
              ("base_url", PStr "https://dashscope.aliyuncs.com/compatible-mode/v1");
              ("model", PStr "qwen3-coder-plus")]) "api_key"
    = Ok api_key /\
    py_getitem
      (PDict [("api_key", PStr "tok");
              ("base_url", PStr "https://dashscope.aliyuncs.com/compatible-mode/v1");
              ("model", PStr "qwen3-coder-plus")]) "base_url"
    = Ok (PStr base_url).
Proof.
  apply (descriptor_has_three_fields
           (Examples.machine (Examples.answering 500 None)) None
           (Examples.world_with (py_dumps (PDict Examples.fresh_record)))).
  vm_compute. reflexivity.
Defined.

(** X22. The normalisation of the base URL is idempotent, and a URL that
    already has a scheme and ends with "/v1" is handed out unchanged:
    nothing is prefixed or appended twice. *)
Theorem base_url_normalisation_is_idempotent (url : string) :
  let normalise := fun u => with_version (with_scheme u) in
  normalise (normalise url) = normalise url /\
  (str_startswith "http://" url || str_startswith "https://" url = true ->
   str_endswith "/v1" url = true ->
   normalise url = url).
Proof.
  cbn zeta.
  assert (Hfix : forall u,
             str_startswith "http://" u || str_startswith "https://" u = true ->
             str_endswith "/v1" u = true ->
             with_version (with_scheme u) = u).
  { intros u Hs He. unfold with_scheme. rewrite Hs. cbn [negb].
    unfold with_version. rewrite He. reflexivity. }
  split; [|apply Hfix].
  destruct (base_url_shape url) as [He Hs].
  apply Hfix; [|exact He].
  apply orb_true_iff. exact Hs.
Qed.

Lemma base_url_normalisation_is_idempotent_witness :
  with_version (with_scheme "https://dashscope.aliyuncs.com/compatible-mode/v1")
  = "https://dashscope.aliyuncs.com/compatible-mode/v1".
Proof.
  destruct (base_url_normalisation_is_idempotent
              "https://dashscope.aliyuncs.com/compatible-mode/v1") as [_ H].
  apply H; reflexivity.
Defined.

(** X23. A record in the layout [save_qwen_credentials] writes, with a
    string [access_token] or any other, an integer [expiry_date] more
    than 30 s ahead and a [resource_url] that is absent or a string, is
    served as it is: the descriptor carries its access token, and the
    call reads the clock once and does nothing else. *)
Theorem saved_fresh_record_is_served
  (env : Env) (custom_path : option string) (w : World) (d : pydict)
  (access : pyval) (expiry : Z) (url : string) :
  well_formed (PDict d) = true ->
  files w !! get_qwen_credential_path env custom_path = Some (py_dumps (PDict d)) ->
  dict_get "access_token" d = Some access ->
  dict_get "expiry_date" d = Some (PInt expiry) ->
  (dict_get "resource_url" d = Some (PStr url) \/
   (dict_get "resource_url" d = None /\ url = QWEN_DEFAULT_BASE_URL)) ->
  (clock_ms env (ticks w) < inject_Z (expiry - 30000))%Q ->
  get_openapi_credentials env custom_path w =
    (Ok (PDict [("api_key", access);
                ("base_url", PStr (with_version (with_scheme url)));
                ("model", PStr "qwen3-coder-plus")]),
     mkWorld (files w) (S (ticks w)) (posted w)).
Proof.
  intros Hwf Hfile Haccess Hexp Hurl Hclock.
  assert (Hload : fst (load_qwen_credentials env custom_path w) = Ok (PDict d))
    by (rewrite (load_after_write env custom_path w (PDict d) Hwf Hfile); reflexivity).
  assert (Hvalid : is_token_valid env (PDict d) w =
                   (Ok true, mkWorld (files w) (S (ticks w)) (posted w))).
  { rewrite (is_token_valid_int env d w expiry Hexp). f_equal. f_equal.
    apply float_lt_int_spec, Hclock. }
  rewrite (get_openapi_credentials_valid env custom_path w _ (PDict d) Hload Hvalid).
  f_equal. unfold openapi_descriptor, py_get, py_getitem. rewrite Haccess.
  destruct Hurl as [-> | [-> ->]]; reflexivity.
Qed.

Lemma saved_fresh_record_is_served_witness :
  let env := Examples.machine Examples.offline in
  let w := Examples.world_with (py_dumps (PDict Examples.fresh_record)) in
  get_openapi_credentials env None w =
    (Ok (PDict [("api_key", PStr "tok");
                ("base_url", PStr (with_version (with_scheme QWEN_DEFAULT_BASE_URL)));
                ("model", PStr "qwen3-coder-plus")]),
     mkWorld (files w) 1 []).
Proof.
  apply (saved_fresh_record_is_served (Examples.machine Examples.offline) None
           (Examples.world_with (py_dumps (PDict Examples.fresh_record)))
           Examples.fresh_record (PStr "tok") 1700000360000 QWEN_DEFAULT_BASE_URL);
    try reflexivity.
  all: try (right; split; reflexivity).
Defined.

(** ** Files written without [indent] *)

Module CompactFacts.

Import PathFacts JsonFacts.

Lemma encode_compact_head (v : pyval) :
  exists c s, encode_compact v = String c s /\
              is_ws c = false /\ Ascii.eqb c "]" = false.
Proof.
  destruct v as [|[|]|n|s|[|x xs]|[|[k x] kxs]];
    try (eexists _, _; split; [reflexivity | split; reflexivity]).
  destruct (int_repr_head n) as (c & s & E & Hc).
  exists c, s. split; [exact E|]. apply digit_chars in Hc. tauto.
Qed.

Lemma skip_ws_encode_compact (v : pyval) (t : string) :
  skip_ws (encode_compact v +:+ t) = encode_compact v +:+ t.
Proof.
  destruct (encode_compact_head v) as (c & s & -> & Hws & _).
  rewrite str_app_cons. apply skip_ws_head, Hws.
Qed.

Lemma comma_space (t : string) : ", " +:+ t = String "," (String " " t).
Proof. reflexivity. Qed.

Lemma compact_list_tail_reads_back (xs : list pyval) :
  Forall reads_back_compact xs ->
  forall (x : pyval) (rest : string) (fuel : nat),
    reads_back_compact x ->
    forallb well_formed (x :: xs) = true ->
    (list_sum (map (fun y => S (value_size y)) (x :: xs)) <= fuel)%nat ->
    parse_elements fuel
      (encode_compact x +:+ compact_list_tail encode_compact xs +:+ rest)
    = Some (x :: xs, rest).
Proof.
  induction 1 as [|y ys Hy Hys IH]; intros x rest fuel Hx Hwf Hfuel;
    cbn [forallb] in Hwf; apply andb_true_iff in Hwf as [Hwx Hwf];
    cbn [map list_sum fold_right] in Hfuel;
    (destruct fuel as [|f]; [lia|]); rewrite parse_elements_step;
    cbn [compact_list_tail].
  - rewrite (Hx _ f); [reflexivity | exact Hwx | lia | reflexivity ..].
  - rewrite !str_app_assoc.
    rewrite (Hx _ f); [|exact Hwx | lia | reflexivity ..].
    rewrite comma_space, skip_ws_head by reflexivity.
    change (Ascii.eqb "," "]") with false. change (Ascii.eqb "," ",") with true.
    cbn iota. rewrite skip_ws_space, skip_ws_encode_compact.
    rewrite (IH y rest f Hy Hwf); [reflexivity|].
    cbn [map list_sum fold_right]. lia.
Qed.

Lemma compact_dict_tail_reads_back (kxs : pydict) :
  Forall (fun kv => reads_back_compact (snd kv)) kxs ->
  forall (k : string) (x : pyval) (rest : string) (fuel : nat),
    reads_back_compact x ->
    forallb (fun kv => well_formed (snd kv)) ((k, x) :: kxs) = true ->
    (list_sum (map (fun kv => S (value_size (snd kv))) ((k, x) :: kxs)) <= fuel)%nat ->
    parse_members fuel
      (escape_body k +:+ String dquote
         (": " +:+ encode_compact x +:+
          compact_dict_tail encode_compact kxs +:+ rest))
    = Some ((k, x) :: kxs, rest).
Proof.
  induction 1 as [|[k' y] ys Hy Hys IH]; intros k x rest fuel Hx Hwf Hfuel;
    cbn [forallb snd] in Hwf; apply andb_true_iff in Hwf as [Hwx Hwf];
    cbn [map list_sum fold_right snd] in Hfuel;
    (destruct fuel as [|f]; [lia|]);
    rewrite parse_members_step, scan_escape_body, colon_space;
    rewrite skip_ws_head by reflexivity;
    change (Ascii.eqb ":" ":") with true; cbn iota;
    rewrite skip_ws_space, skip_ws_encode_compact; cbn [compact_dict_tail].
  - rewrite (Hx _ f); [reflexivity | exact Hwx | lia | reflexivity ..].
  - rewrite !str_app_assoc.
    rewrite (Hx _ f); [|exact Hwx | lia | reflexivity ..].
    rewrite comma_space, skip_ws_head by reflexivity.
    change (Ascii.eqb "," "}") with false. change (Ascii.eqb "," ",") with true.
    cbn iota. rewrite skip_ws_space, encode_str_app.
    rewrite skip_ws_head by reflexivity.
    change (Ascii.eqb dquote dquote) with true. cbn iota.
    cbn [snd] in Hy.
    rewrite (IH k' y rest f Hy Hwf); [reflexivity|].
    cbn [map list_sum fold_right snd]. lia.
Qed.

Lemma encode_compact_reads_back (v : pyval) : reads_back_compact v.
Proof.
  induction v as [|b|n|s|l IH|d IH] using pyval_ind;
    intros rest fuel Hwf Hfuel Hdigit Hfloat;
    (destruct fuel as [|f]; [cbn [value_size] in Hfuel; lia|]).
  - destruct rest; reflexivity.
  - destruct b, rest; reflexivity.
  - cbn [encode_compact]. destruct (int_repr_head n) as (c & s & E & Hc).
    pose proof (scan_number_repr n rest Hdigit Hfloat) as Hscan.
    rewrite E in *. rewrite str_app_cons in *.
    rewrite (parse_value_number f c _ Hc). exact Hscan.
  - cbn [encode_compact]. rewrite encode_str_app, parse_value_str, scan_escape_body.
    reflexivity.
  - destruct l as [|x xs]; [reflexivity|].
    cbn [encode_compact]. rewrite !str_app_assoc.
    change ("[" +:+ ?s) with (String "[" s).
    rewrite parse_value_list, skip_ws_encode_compact.
    inversion IH as [|? ? Hx Hxs]; subst.
    pose proof (compact_list_tail_reads_back xs Hxs x rest f Hx) as Htail.
    cbn [well_formed] in Hwf. cbn [value_size] in Hfuel.
    specialize (Htail Hwf ltac:(lia)).
    destruct (encode_compact_head x) as (c & s & E & _ & Hc).
    rewrite E in *. rewrite str_app_cons in *. rewrite Hc, Htail. reflexivity.
  - destruct d as [|[k x] kxs]; [reflexivity|].
    cbn [encode_compact]. rewrite !str_app_assoc.
    change ("{" +:+ ?s) with (String "{" s).
    rewrite parse_value_dict, encode_str_app.
    rewrite skip_ws_head by reflexivity.
    change (Ascii.eqb dquote "}") with false.
    change (Ascii.eqb dquote dquote) with true. cbn iota.
    inversion IH as [|? ? Hx Hxs]; subst. cbn [snd] in Hx.
    cbn [well_formed] in Hwf. apply andb_true_iff in Hwf as [Hkeys Hwf].
    cbn [value_size] in Hfuel.
    rewrite (compact_dict_tail_reads_back kxs Hxs k x rest f Hx Hwf ltac:(lia)).
    rewrite (dict_of_pairs_distinct _ Hkeys). reflexivity.
Qed.

Lemma loads_dumps_compact (v : pyval) :
  well_formed v = true -> py_loads (py_dumps_compact v) = Some v.
Proof.
  intros Hwf. unfold py_dumps_compact.
  apply (FuelFacts.py_loads_complete (value_size v) _ v ""); [|reflexivity].
  pose proof (skip_ws_encode_compact v "") as Hskip.
  rewrite str_app_nil_r in Hskip. rewrite Hskip.
  pose proof (encode_compact_reads_back v "" (value_size v) Hwf) as H.
  rewrite str_app_nil_r in H. apply H; [lia | reflexivity ..].
Qed.

End CompactFacts.

(** X24. [load_qwen_credentials] reads back a record that [json.dump] wrote
    without [indent], the file the test suite prepares: the loaded record
    is the dumped one. *)
Theorem load_reads_compact_dump
  (env : Env) (custom_path : option string) (w : World) (record : pyval) :
  well_formed record = true ->
  files w !! get_qwen_credential_path env custom_path
    = Some (py_dumps_compact record) ->
  load_qwen_credentials env custom_path w = (Ok record, w).
Proof.
  intros Hwf Hfile. unfold load_qwen_credentials, read_json.
  rewrite Hfile, (CompactFacts.loads_dumps_compact record Hwf). reflexivity.
Qed.

Lemma load_reads_compact_dump_witness :
  let env := Examples.machine (Examples.answering 200 None) in
  let w := Examples.world_with (py_dumps_compact (PDict Examples.fresh_record)) in
  load_qwen_credentials env None w = (Ok (PDict Examples.fresh_record), w).
Proof.
  apply (load_reads_compact_dump (Examples.machine (Examples.answering 200 None))
           None (Examples.world_with (py_dumps_compact (PDict Examples.fresh_record)))
           (PDict Examples.fresh_record)); reflexivity.
Defined.

(** ** Relative custom paths *)

Module RelativePathFacts.

Import PosixPath PathFacts.

Lemma endswith_slash_app (s c : string) :
  c <> "" -> str_endswith "/" (s +:+ c) = str_endswith "/" c.
Proof.
  intros Hc. induction s as [|a s IH]; [reflexivity|].
  rewrite str_app_cons. cbn [str_endswith]. rewrite IH.
  replace (String.eqb (String a (s +:+ c)) "/") with false; [reflexivity|].
  symmetry. apply String.eqb_neq. intros E. injection E as _ E.
  destruct s; [apply Hc, E | discriminate E].
Qed.

Lemma no_slash_endswith (c : string) : no_slash c = true -> str_endswith "/" c = false.
Proof.
  induction c as [|a c IH]; [reflexivity|].
  cbn [no_slash str_endswith]. intros H. apply andb_true_iff in H as [Ha Hc].
  rewrite (IH Hc), orb_false_r. apply negb_true_iff in Ha.
  apply String.eqb_neq. intros E. injection E as -> _. discriminate Ha.
Qed.

Lemma proper_nonempty (c : string) : proper_component c = true -> c <> "".
Proof. intros H ->. discriminate H. Qed.

Lemma join_not_endswith_slash (cs : list string) :
  forall (c pre : string),
    Forall (fun x => proper_component x = true) (c :: cs) ->
    str_endswith "/" (pre +:+ join_slash (c :: cs)) = false.
Proof.
  induction cs as [|c2 cs IH]; intros c pre H; inversion H as [|? ? Hc Hcs]; subst.
  - cbn [join_slash String.concat].
    rewrite (endswith_slash_app pre c (proper_nonempty c Hc)).
    apply no_slash_endswith, proper_no_slash, Hc.
  - change (join_slash (c :: c2 :: cs)) with (c +:+ "/" +:+ join_slash (c2 :: cs)).
    rewrite <- !str_app_assoc. apply IH. exact Hcs.
Qed.

Lemma join_slash_app (cs1 cs2 : list string) :
  cs1 <> [] -> cs2 <> [] ->
  join_slash (cs1 ++ cs2) = join_slash cs1 +:+ "/" +:+ join_slash cs2.
Proof.
  intros H1 H2. induction cs1 as [|c cs1 IH]; [contradiction|].
  destruct cs1 as [|c' cs1].
  - destruct cs2; [contradiction | reflexivity].
  - change (join_slash ((c :: c' :: cs1) ++ cs2))
      with (c +:+ "/" +:+ join_slash ((c' :: cs1) ++ cs2)).
    rewrite IH by discriminate.
    change (join_slash (c :: c' :: cs1)) with (c +:+ "/" +:+ join_slash (c' :: cs1)).
    rewrite !str_app_assoc. reflexivity.
Qed.

Lemma join_head_not_slash (c : string) (cs : list string) :
  proper_component c = true -> str_startswith "/" (join_slash (c :: cs)) = false.
Proof.
  intros Hc. destruct (proper_head c Hc) as (a & c' & -> & Ha).
  unfold str_startswith.
  assert (E : exists t, join_slash (String a c' :: cs) = String a t).
  { destruct cs; cbn [join_slash String.concat]; rewrite ?str_app_cons; eauto. }
  destruct E as [t ->]. cbn [String.prefix].
  destruct (Ascii.ascii_dec "/" a) as [<-|]; [discriminate Ha | reflexivity].
Qed.

(** Joining a normalised working directory and a relative path. *)
Lemma join_cwd (cs1 : list string) (c : string) (cs2 : list string) :
  Forall (fun x => proper_component x = true) cs1 ->
  proper_component c = true ->
  join2 ("/" +:+ join_slash cs1) (join_slash (c :: cs2))
  = "/" +:+ join_slash (cs1 ++ c :: cs2).
Proof.
  intros H1 Hc. unfold join2. rewrite (join_head_not_slash c cs2 Hc).
  destruct cs1 as [|c1 cs1].
  - reflexivity.
  - rewrite (join_not_endswith_slash cs1 c1 "/" H1).
    change (String.eqb ("/" +:+ join_slash (c1 :: cs1)) "") with false.
    cbn [orb]. rewrite join_slash_app by discriminate.
    rewrite !str_app_assoc. reflexivity.
Qed.

End RelativePathFacts.

(** X25. A relative custom path is resolved against the working directory:
    with a normalised working directory [/a/b], a path [c/d] of proper
    components that does not begin with "~/" resolves to [/a/b/c/d]. A
    lone "~" or a "~user" prefix is such a component: only "~/" is
    expanded. *)
Theorem relative_custom_path_resolution
  (env : Env) (cwd_parts : list string) (c : string) (parts : list string) :
  cwd env = "/" +:+ PosixPath.join_slash cwd_parts ->
  Forall (fun x => PosixPath.proper_component x = true) cwd_parts ->
  Forall (fun x => PosixPath.proper_component x = true) (c :: parts) ->
  str_startswith "~/" (PosixPath.join_slash (c :: parts)) = false ->
  get_qwen_credential_path env (Some (PosixPath.join_slash (c :: parts)))
  = "/" +:+ PosixPath.join_slash (cwd_parts ++ c :: parts).
Proof.
  intros Hcwd H1 H2 Htilde. inversion H2 as [|? ? Hc Hcs]; subst.
  unfold get_qwen_credential_path. rewrite Htilde.
  replace (String.eqb (PosixPath.join_slash (c :: parts)) "") with false.
  2:{ symmetry. apply String.eqb_neq. intros E.
      destruct (PathFacts.proper_head c Hc) as (a & c' & -> & _).
      destruct parts; discriminate E. }
  cbn [negb]. unfold PosixPath.abspath, PosixPath.isabs.
  rewrite (RelativePathFacts.join_head_not_slash c parts Hc).
  unfold PosixPath.join. cbn [fold_left]. rewrite Hcwd.
  rewrite (RelativePathFacts.join_cwd cwd_parts c parts H1 Hc).
  apply PathFacts.normpath_normalised.
  apply Forall_app. split; assumption.
Qed.

Lemma relative_custom_path_resolution_witness :
  get_qwen_credential_path (Examples.machine Examples.offline)
    (Some "creds/qwen.json") = "/work/creds/qwen.json" /\
  get_qwen_credential_path (Examples.machine Examples.offline)
    (Some "~") = "/work/~".
Proof.
  split.
  - apply (relative_custom_path_resolution (Examples.machine Examples.offline)
             ["work"] "creds" ["qwen.json"]); try reflexivity; repeat constructor.
  - apply (relative_custom_path_resolution (Examples.machine Examples.offline)
             ["work"] "~" []); try reflexivity; repeat constructor.
Defined.
